(** * serverflow kernel: message queue and thread pool

    A shallow embedding of [kernel/msgqueue.c] and [kernel/thrdpool.c].

    The C code is modelled as sequential code of one calling thread:
    - the queue and the pool are records mirroring the C structs (the
      pthread objects inside them are opaque and appear only in events);
    - message memory is a finite map from addresses to pointer-sized words;
    - every pthread/libc call leaves an event in the trace of the call;
    - a [pthread_cond_wait] loop whose guard holds suspends the caller
      (outcome [Waits]): no other thread runs in this model;
    - results of the environment ([malloc], [pthread_create], ...) are
      arguments of the function that consumes them. *)

From Stdlib Require Import ZArith Lia List.
From stdpp Require Import base option gmap.
Import ListNotations.
Open Scope Z_scope.

(** ** Machine integers and pointers *)

(** [size_t] on LP64. *)
Definition SIZE_BITS : Z := 64.
Definition SIZE_MOD : Z := 2 ^ SIZE_BITS.
Definition SIZE_MAX : Z := SIZE_MOD - 1.

(** Unsigned wrap-around of [size_t] arithmetic. *)
Definition size_wrap (z : Z) : Z := z mod SIZE_MOD.
Definition size_sub (a b : Z) : Z := size_wrap (a - b).
Definition size_add (a b : Z) : Z := size_wrap (a + b).

Definition in_size_t (z : Z) : Prop := 0 <= z < SIZE_MOD.

Definition NULL : Z := 0.
Definition is_null (p : Z) : bool := p =? NULL.

(** ** Synchronisation objects and events *)

Inductive mutex := get_mutex | put_mutex | pool_mutex.
Inductive condv := get_cond | put_cond | term_cond.

(** What [free] is called on: the queue struct, the pool struct or a
    message (task entry) at an address. *)
Inductive block := BQueue | BPool | BMsg (a : Z).

Inductive event :=
| EvLock (m : mutex)
| EvUnlock (m : mutex)
| EvSignal (c : condv)
| EvBroadcast (c : condv)
| EvMutexDestroy (m : mutex)
| EvCondDestroy (c : condv)
| EvFree (b : block)
| EvMutexInit (m : mutex) (ret : Z)
| EvCondInit (c : condv) (ret : Z)
| EvKeyCreate (ret : Z)
| EvKeyDelete
| EvAttrInit (ret : Z)
| EvAttrSetStackSize (sz : Z)
| EvAttrDestroy
| EvCreate (ret : Z)
| EvDetach (t : Z)
| EvJoin (t : Z).

(** ** Memory and the monad of calls *)

Record state := mkState {
  heap : gmap Z Z;     (* message memory: one pointer-sized word per address *)
  errno : Z
}.

Definition set_heap (h : gmap Z Z) (s : state) : state :=
  mkState h (errno s).
Definition set_errno (e : Z) (s : state) : state :=
  mkState (heap s) e.

Inductive outcome (A : Type) :=
| Done (a : A) (s : state) (t : list event)   (* the call returned *)
| Waits (c : condv) (t : list event)          (* suspended in pthread_cond_wait *)
| Fault.                                      (* read of a cell never written *)
Arguments Done {A} a s t.
Arguments Waits {A} c t.
Arguments Fault {A}.

Definition M (A : Type) : Type := state -> outcome A.

#[global] Instance M_ret : MRet M := fun A a s => Done a s [].
#[global] Instance M_bind : MBind M := fun A B k m s =>
  match m s with
  | Done a s1 t1 =>
      match k a s1 with
      | Done b s2 t2 => Done b s2 (t1 ++ t2)
      | Waits c t2 => Waits c (t1 ++ t2)
      | Fault => Fault
      end
  | Waits c t1 => Waits c t1
  | Fault => Fault
  end.

Definition emit (e : event) : M unit := fun s => Done tt s [e].

(** [while (guard) pthread_cond_wait(&c, &m);] for a guard that only other
    threads can change. *)
Definition wait_while (guard : bool) (c : condv) : M unit :=
  fun s => if guard then Waits c [] else Done tt s [].

Definition when (b : bool) (m : M unit) : M unit :=
  if b then m else mret tt.

Definition read_cell (a : Z) : M Z := fun s =>
  match heap s !! a with
  | Some v => Done v s []
  | None => Fault
  end.

Definition write_cell (a v : Z) : M unit := fun s =>
  Done tt (set_heap (<[a := v]> (heap s)) s) [].

Definition write_errno (e : Z) : M unit := fun s =>
  Done tt (set_errno e s) [].

(** ** msgqueue.c *)

(** A [void **] of the queue: the address of one of its two list heads, or
    the address of a link field inside a message. *)
Inductive ref := Head1 | Head2 | Link (a : Z).

#[global] Instance ref_eq_dec : EqDecision ref.
Proof. solve_decision. Defined.

(** [struct __msgqueue] without its pthread objects. *)
Record msgqueue_t := mkQueue {
  msg_max : Z;
  msg_cnt : Z;
  link_off : Z;
  nonblock : bool;
  head1 : Z;
  head2 : Z;
  get_head : ref;
  put_head : ref;
  put_tail : ref
}.

Definition with_msg_cnt (v : Z) (q : msgqueue_t) : msgqueue_t :=
  mkQueue (msg_max q) v (link_off q) (nonblock q) (head1 q) (head2 q)
          (get_head q) (put_head q) (put_tail q).
Definition with_nonblock (v : bool) (q : msgqueue_t) : msgqueue_t :=
  mkQueue (msg_max q) (msg_cnt q) (link_off q) v (head1 q) (head2 q)
          (get_head q) (put_head q) (put_tail q).
Definition with_head1 (v : Z) (q : msgqueue_t) : msgqueue_t :=
  mkQueue (msg_max q) (msg_cnt q) (link_off q) (nonblock q) v (head2 q)
          (get_head q) (put_head q) (put_tail q).
Definition with_head2 (v : Z) (q : msgqueue_t) : msgqueue_t :=
  mkQueue (msg_max q) (msg_cnt q) (link_off q) (nonblock q) (head1 q) v
          (get_head q) (put_head q) (put_tail q).
Definition with_get_head (r : ref) (q : msgqueue_t) : msgqueue_t :=
  mkQueue (msg_max q) (msg_cnt q) (link_off q) (nonblock q) (head1 q) (head2 q)
          r (put_head q) (put_tail q).
Definition with_put_head (r : ref) (q : msgqueue_t) : msgqueue_t :=
  mkQueue (msg_max q) (msg_cnt q) (link_off q) (nonblock q) (head1 q) (head2 q)
          (get_head q) r (put_tail q).
Definition with_put_tail (r : ref) (q : msgqueue_t) : msgqueue_t :=
  mkQueue (msg_max q) (msg_cnt q) (link_off q) (nonblock q) (head1 q) (head2 q)
          (get_head q) (put_head q) r.

(** [*r] *)
Definition load (q : msgqueue_t) (r : ref) : M Z :=
  match r with
  | Head1 => mret (head1 q)
  | Head2 => mret (head2 q)
  | Link a => read_cell a
  end.

(** [*r = v] *)
Definition store (q : msgqueue_t) (r : ref) (v : Z) : M msgqueue_t :=
  match r with
  | Head1 => mret (with_head1 v q)
  | Head2 => mret (with_head2 v q)
  | Link a => write_cell a v;; mret q
  end.

(** The guard of the producer's wait: [msg_cnt > msg_max - 1] in [size_t]. *)
Definition queue_full (q : msgqueue_t) : bool :=
  msg_cnt q >? size_sub (msg_max q) 1.

Definition __msgqueue_swap (q : msgqueue_t) : M (Z * msgqueue_t) :=
  let old_get_head := get_head q in
  let q := with_get_head (put_head q) q in
  emit (EvLock put_mutex);;
  wait_while ((msg_cnt q =? 0) && negb (nonblock q)) get_cond;;
  let cnt := msg_cnt q in
  when (queue_full q) (emit (EvBroadcast put_cond));;
  let q := with_put_head old_get_head q in
  let q := with_put_tail old_get_head q in
  let q := with_msg_cnt 0 q in
  emit (EvUnlock put_mutex);;
  mret (cnt, q).

(** Outcome of the five [pthread_*_init] and [malloc] calls of
    [msgqueue_create]. *)
Record create_env := mkCreateEnv {
  malloc_ok : bool;
  get_mutex_init : Z;
  put_mutex_init : Z;
  get_cond_init : Z;
  put_cond_init : Z
}.

Definition fresh_queue (maxlen linkoff : Z) : msgqueue_t :=
  {| msg_max := maxlen; msg_cnt := 0; link_off := linkoff; nonblock := false;
     head1 := NULL; head2 := NULL;
     get_head := Head1; put_head := Head2; put_tail := Head2 |}.

Definition msgqueue_create (env : create_env) (maxlen linkoff : Z)
  : M (option msgqueue_t) :=
  if negb (malloc_ok env) then mret None
  else
    ret ← (emit (EvMutexInit get_mutex (get_mutex_init env));;
           if get_mutex_init env =? 0 then
             emit (EvMutexInit put_mutex (put_mutex_init env));;
             if put_mutex_init env =? 0 then
               emit (EvCondInit get_cond (get_cond_init env));;
               if get_cond_init env =? 0 then
                 emit (EvCondInit put_cond (put_cond_init env));;
                 mret (put_cond_init env)
               else mret (get_cond_init env)
             else mret (put_mutex_init env)
           else mret (get_mutex_init env));
    if ret =? 0 then mret (Some (fresh_queue maxlen linkoff))
    else write_errno ret;; emit (EvFree BQueue);; mret None.

Definition msgqueue_put (msg : Z) (q : msgqueue_t) : M msgqueue_t :=
  let link := msg + link_off q in
  write_cell link NULL;;
  emit (EvLock put_mutex);;
  wait_while (queue_full q && negb (nonblock q)) put_cond;;
  q ← store q (put_tail q) link;
  let q := with_put_tail (Link link) q in
  emit (EvUnlock put_mutex);;
  emit (EvSignal get_cond);;
  mret q.

(** The body of the first branch of [msgqueue_get]. *)
Definition pop_head (q : msgqueue_t) : M (Z * msgqueue_t) :=
  p ← load q (get_head q);
  let msg := p - link_off q in
  next ← read_cell p;
  q ← store q (get_head q) next;
  mret (msg, q).

Definition msgqueue_get (q : msgqueue_t) : M (Z * msgqueue_t) :=
  emit (EvLock get_mutex);;
  p ← load q (get_head q);
  r ← (if negb (is_null p) then pop_head q
       else
         '(cnt, q) ← __msgqueue_swap q;
         if cnt >? 0 then pop_head q else mret (NULL, q));
  emit (EvUnlock get_mutex);;
  mret r.

Definition msgqueue_destory (q : msgqueue_t) : M unit :=
  emit (EvMutexDestroy get_mutex);;
  emit (EvMutexDestroy put_mutex);;
  emit (EvCondDestroy put_cond);;
  emit (EvCondDestroy get_cond);;
  emit (EvFree BQueue).


(** Modelled from the spec: [msgqueue_set_nonblock] is declared in
    msgqueue.h and called from thrdpool.c, but msgqueue.c does not define
    it.  The spec: "acquires both mutexes in a consistent order, sets
    nonblock = true, broadcasts both condition variables so blocked
    producers and consumers observe the change, releases"; the order is
    "get before put". *)
Definition msgqueue_set_nonblock (q : msgqueue_t) : M msgqueue_t :=
  emit (EvLock get_mutex);;
  emit (EvLock put_mutex);;
  let q := with_nonblock true q in
  emit (EvBroadcast get_cond);;
  emit (EvBroadcast put_cond);;
  emit (EvUnlock put_mutex);;
  emit (EvUnlock get_mutex);;
  mret q.

(** Modelled from the spec: [msgqueue_set_block] is declared in msgqueue.h
    but msgqueue.c does not define it.  The spec: "symmetric clear". *)
Definition msgqueue_set_block (q : msgqueue_t) : M msgqueue_t :=
  emit (EvLock get_mutex);;
  emit (EvLock put_mutex);;
  let q := with_nonblock false q in
  emit (EvBroadcast get_cond);;
  emit (EvBroadcast put_cond);;
  emit (EvUnlock put_mutex);;
  emit (EvUnlock get_mutex);;
  mret q.

(** ** thrdpool.c *)

Record thrdpool_task := mkTask {
  routine : Z;      (* void ( *routine)(void * ) *)
  context : Z       (* void *context *)
}.

(** [struct __thrdpool] without its mutex and key.  The pool owns its one
    queue, so the [msgqueue] pointer is modelled by the queue itself;
    [terminate] is null or the address of the terminator's condition
    variable. *)
Record thrdpool_t := mkPool {
  msgqueue : msgqueue_t;
  nthreads : Z;
  stacksize : Z;
  tid : Z;
  terminate : option condv
}.

Definition with_msgqueue (q : msgqueue_t) (p : thrdpool_t) : thrdpool_t :=
  mkPool q (nthreads p) (stacksize p) (tid p) (terminate p).
Definition with_nthreads (n : Z) (p : thrdpool_t) : thrdpool_t :=
  mkPool (msgqueue p) n (stacksize p) (tid p) (terminate p).
Definition with_tid (t : Z) (p : thrdpool_t) : thrdpool_t :=
  mkPool (msgqueue p) (nthreads p) (stacksize p) t (terminate p).
Definition with_terminate (c : option condv) (p : thrdpool_t) : thrdpool_t :=
  mkPool (msgqueue p) (nthreads p) (stacksize p) (tid p) c.

(** [struct __thrdpool_task_entry] on LP64: the link at offset 0, then the
    two words of the task. *)
Definition PTR_SIZE : Z := 8.
Definition OFF_LINK : Z := 0.
Definition OFF_ROUTINE : Z := PTR_SIZE.
Definition OFF_CONTEXT : Z := 2 * PTR_SIZE.

(** [static pthread_t __zero_tid;] *)
Definition __zero_tid : Z := 0.

(** [memcpy] of one [pthread_t] into [pool->tid]: it stores the source
    there and returns the destination pointer, the address of a field of
    an existing pool, which is never null. *)
Inductive tid_ptr := NullTidPtr | PoolTidPtr.

Definition tid_ptr_nonzero (p : tid_ptr) : bool :=
  match p with NullTidPtr => false | PoolTidPtr => true end.

Definition memcpy_pool_tid (src : Z) (pool : thrdpool_t) : tid_ptr * thrdpool_t :=
  (PoolTidPtr, with_tid src pool).

(** [memcmp] of two [pthread_t]: zero exactly when they are equal. *)
Definition memcmp_tid (a b : Z) : Z :=
  if a =? b then 0 else if a <? b then -1 else 1.

(** The exit protocol of [__thrdpool_routine], the code after its loop:
    the worker [self] records itself as the last to leave and joins the
    one recorded before it, if any. *)
Definition __thrdpool_routine_exit (self : Z) (pool : thrdpool_t) : M thrdpool_t :=
  emit (EvLock pool_mutex);;
  let tid0 := tid pool in
  let pool := with_tid self pool in
  let pool := with_nthreads (size_sub (nthreads pool) 1) pool in
  when (nthreads pool =? 0) (emit (EvSignal term_cond));;
  emit (EvUnlock pool_mutex);;
  when (negb (memcmp_tid tid0 __zero_tid =? 0)) (emit (EvJoin tid0));;
  mret pool.

Definition __thrdpool_terminate (self : Z) (in_pool : bool) (pool : thrdpool_t)
  : M thrdpool_t :=
  emit (EvLock pool_mutex);;
  q ← msgqueue_set_nonblock (msgqueue pool);
  let pool := with_msgqueue q pool in
  let pool := with_terminate (Some term_cond) pool in
  pool ← (if in_pool then
            emit (EvDetach self);;
            mret (with_nthreads (size_sub (nthreads pool) 1) pool)
          else mret pool);
  wait_while (nthreads pool >? 0) term_cond;;
  emit (EvUnlock pool_mutex);;
  let '(r, pool) := memcpy_pool_tid __zero_tid pool in
  when (tid_ptr_nonzero r) (emit (EvJoin (tid pool)));;
  mret pool.

Definition __thrdpool_schedule (task : thrdpool_task) (buf : Z) (pool : thrdpool_t)
  : M thrdpool_t :=
  write_cell (buf + OFF_ROUTINE) (routine task);;
  write_cell (buf + OFF_CONTEXT) (context task);;
  q ← msgqueue_put buf (msgqueue pool);
  mret (with_msgqueue q pool).

(** [buf] is what [malloc] returned to this call. *)
Definition thrdpool_schedule (buf : Z) (task : thrdpool_task) (pool : thrdpool_t)
  : M (Z * thrdpool_t) :=
  if negb (is_null buf) then
    pool ← __thrdpool_schedule task buf pool;
    mret (0, pool)
  else mret (-1, pool).

(** [attr_ret] and [create_ret] are what [pthread_attr_init] and
    [pthread_create] returned to this call. *)
Definition thrdpool_increase (attr_ret create_ret : Z) (pool : thrdpool_t)
  : M (Z * thrdpool_t) :=
  emit (EvAttrInit attr_ret);;
  if attr_ret =? 0 then
    when (negb (stacksize pool =? 0)) (emit (EvAttrSetStackSize (stacksize pool)));;
    emit (EvLock pool_mutex);;
    emit (EvCreate create_ret);;
    let pool := if create_ret =? 0
                then with_nthreads (size_add (nthreads pool) 1) pool
                else pool in
    emit (EvUnlock pool_mutex);;
    emit EvAttrDestroy;;
    if create_ret =? 0 then mret (0, pool)
    else write_errno create_ret;; mret (-1, pool)
  else write_errno attr_ret;; mret (-1, pool).

(** Outcome of the environment calls of [thrdpool_create]:
    [spawn_ret i] is what the [i]-th [pthread_create] returns. *)
Record pool_env := mkPoolEnv {
  pool_malloc_ok : bool;
  queue_env : create_env;
  pool_mutex_init : Z;
  key_create : Z;
  attr_init : Z;
  spawn_ret : nat -> Z
}.

(** The [while (pool->nthreads < nthreads)] loop of
    [__thrdpool_create_threads]; [ret] is the variable of that name and [i]
    counts the calls of [pthread_create].  Every iteration but the last
    brings [nthreads] one closer to the target, so the caller's fuel is
    never used up. *)
Fixpoint spawn_loop (fuel : nat) (env : pool_env) (i : nat) (target ret : Z)
    (pool : thrdpool_t) : M (Z * thrdpool_t) :=
  match fuel with
  | O => mret (ret, pool)
  | S fuel =>
      if nthreads pool <? target then
        let ret := spawn_ret env i in
        emit (EvCreate ret);;
        if ret =? 0 then
          spawn_loop fuel env (S i) target ret
                     (with_nthreads (size_add (nthreads pool) 1) pool)
        else mret (ret, pool)
      else mret (ret, pool)
  end.

Definition __thrdpool_create_threads (env : pool_env) (self : Z) (n : Z)
    (pool : thrdpool_t) : M (Z * thrdpool_t) :=
  let ret := attr_init env in
  emit (EvAttrInit ret);;
  if ret =? 0 then
    when (negb (stacksize pool =? 0)) (emit (EvAttrSetStackSize (stacksize pool)));;
    '(ret, pool) ← spawn_loop (S (Z.to_nat (n - nthreads pool))) env 0 n ret pool;
    emit EvAttrDestroy;;
    if nthreads pool =? n then mret (0, pool)
    else
      pool ← __thrdpool_terminate self false pool;
      write_errno ret;;
      mret (-1, pool)
  else write_errno ret;; mret (-1, pool).

Definition thrdpool_create (env : pool_env) (self : Z) (n stack : Z)
  : M (option thrdpool_t) :=
  if negb (pool_malloc_ok env) then mret None
  else
    q ← msgqueue_create (queue_env env) 0 0;
    match q with
    | None => emit (EvFree BPool);; mret None
    | Some q =>
        (* stacksize, nthreads, tid and terminate hold nothing yet *)
        let pool := mkPool q 0 0 0 None in
        let ret := pool_mutex_init env in
        emit (EvMutexInit pool_mutex ret);;
        '(ok, ret, pool) ←
          (if ret =? 0 then
             let ret := key_create env in
             emit (EvKeyCreate ret);;
             '(ok, pool) ←
               (if ret =? 0 then
                  let pool := mkPool q 0 stack 0 None in
                  '(rc, pool) ← __thrdpool_create_threads env self n pool;
                  if rc >=? 0 then mret (true, pool)
                  else emit EvKeyDelete;; mret (false, pool)
                else mret (false, pool));
             if ok : bool then mret (true, ret, pool)
             else emit (EvMutexDestroy pool_mutex);; mret (false, ret, pool)
           else mret (false, ret, pool));
        if ok : bool then mret (Some pool)
        else
          write_errno ret;;
          msgqueue_destory (msgqueue pool);;
          emit (EvFree BPool);;
          mret None
    end.

(** ** Runs and list views used by the statements *)

Fixpoint msgqueue_puts (msgs : list Z) (q : msgqueue_t) : M msgqueue_t :=
  match msgs with
  | [] => mret q
  | m :: ms => q ← msgqueue_put m q; msgqueue_puts ms q
  end.

(** [*r] as a value, when the cell has one. *)
Definition slot_value (q : msgqueue_t) (h : gmap Z Z) (r : ref) : option Z :=
  match r with
  | Head1 => Some (head1 q)
  | Head2 => Some (head2 q)
  | Link a => h !! a
  end.

(** The list hanging from slot [r]: [l] gives the link addresses of its
    entries in order, and [last] is the slot that holds the closing null. *)
Fixpoint linked (q : msgqueue_t) (h : gmap Z Z) (r : ref) (l : list Z) (last : ref)
  : Prop :=
  match l with
  | [] => slot_value q h r = Some NULL /\ last = r
  | a :: l' => a <> NULL /\ slot_value q h r = Some a /\ linked q h (Link a) l' last
  end.

Definition is_head (r : ref) : Prop := r = Head1 \/ r = Head2.

(** The queue holds the consumer-side list [lc] and the producer-side list
    [lp] (link addresses; the message of link [a] is [a - link_off]). *)
Definition queue_lists (q : msgqueue_t) (h : gmap Z Z) (lc lp : list Z) : Prop :=
  is_head (get_head q) /\ is_head (put_head q) /\ get_head q <> put_head q /\
  (exists last, linked q h (get_head q) lc last) /\
  linked q h (put_head q) lp (put_tail q) /\
  NoDup (lc ++ lp).

(** The slots a list of entries [l] hanging from [r] goes through. *)
Definition slots (r : ref) (l : list Z) : list ref := r :: (Link <$> l).

(** What [*r = v] does to the queue struct and to message memory. *)
Definition store_queue (q : msgqueue_t) (r : ref) (v : Z) : msgqueue_t :=
  match r with
  | Head1 => with_head1 v q
  | Head2 => with_head2 v q
  | Link _ => q
  end.

Definition store_heap (h : gmap Z Z) (r : ref) (v : Z) : gmap Z Z :=
  match r with
  | Link a => <[a := v]> h
  | _ => h
  end.

(** The queue struct as [__msgqueue_swap] leaves it. *)
Definition swapped (q : msgqueue_t) : msgqueue_t :=
  with_msg_cnt 0
    (with_put_tail (get_head q)
       (with_put_head (get_head q) (with_get_head (put_head q) q))).

(** What a run of puts on a fresh queue keeps true. *)
Definition never_counted (q : msgqueue_t) : Prop :=
  get_head q = Head1 /\ head1 q = NULL /\ msg_cnt q = 0 /\
  nonblock q = false /\ put_tail q <> Head1.

(** A pool as [thrdpool_create] leaves its queue: created by
    [msgqueue_create(0, 0)]. *)
Definition pool_queue_ok (pool : thrdpool_t) : Prop :=
  msg_max (msgqueue pool) = 0 /\ link_off (msgqueue pool) = 0 /\
  in_size_t (msg_cnt (msgqueue pool)).

(** Traces of the calls. *)
Definition put_trace : list event :=
  [EvLock put_mutex; EvUnlock put_mutex; EvSignal get_cond].

Definition swap_trace (q : msgqueue_t) : list event :=
  EvLock put_mutex ::
  (if queue_full q then [EvBroadcast put_cond] else []) ++ [EvUnlock put_mutex].

Definition destory_trace : list event :=
  [EvMutexDestroy get_mutex; EvMutexDestroy put_mutex;
   EvCondDestroy put_cond; EvCondDestroy get_cond; EvFree BQueue].

Definition mode_trace : list event :=
  [EvLock get_mutex; EvLock put_mutex; EvBroadcast get_cond;
   EvBroadcast put_cond; EvUnlock put_mutex; EvUnlock get_mutex].

Definition terminate_trace : list event :=
  EvLock pool_mutex :: mode_trace ++ [EvUnlock pool_mutex; EvJoin 0].

(** Concrete inputs. *)
Definition ok_env : create_env := mkCreateEnv true 0 0 0 0.
Definition st0 : state := mkState ∅ 0.

Definition demo_pool (last_exiter : Z) : thrdpool_t :=
  mkPool (fresh_queue 0 0) 0 0 last_exiter None.

Definition demo_task : thrdpool_task := mkTask 1000 2000.

Definition ok_pool_env : pool_env :=
  mkPoolEnv true ok_env 0 0 0 (fun _ => 0).

(** ** More runs and views *)

Fixpoint msgqueue_gets (n : nat) (q : msgqueue_t) : M (list Z * msgqueue_t) :=
  match n with
  | O => mret ([], q)
  | S n =>
      '(m, q) ← msgqueue_get q;
      '(ms, q) ← msgqueue_gets n q;
      mret (m :: ms, q)
  end.

(** The queues a program can hold: created by [msgqueue_create], then put
    to and got from, with the mode flag switched at will. *)
Inductive reachable : msgqueue_t -> Prop :=
| reach_create (maxlen linkoff : Z) :
    reachable (fresh_queue maxlen linkoff)
| reach_put (q q' : msgqueue_t) (msg : Z) (s s' : state) (t : list event) :
    reachable q -> msgqueue_put msg q s = Done q' s' t -> reachable q'
| reach_get (q q' : msgqueue_t) (m : Z) (s s' : state) (t : list event) :
    reachable q -> msgqueue_get q s = Done (m, q') s' t -> reachable q'
| reach_mode (q : msgqueue_t) (b : bool) :
    reachable q -> reachable (with_nonblock b q).

(** The first of the four init results that is not zero (zero when all
    are): the value [ret] holds when [msgqueue_create] leaves its nest of
    ifs. *)
Definition first_failure (env : create_env) : Z :=
  if negb (get_mutex_init env =? 0) then get_mutex_init env
  else if negb (put_mutex_init env =? 0) then put_mutex_init env
  else if negb (get_cond_init env =? 0) then get_cond_init env
  else put_cond_init env.

Definition is_destroy (e : event) : bool :=
  match e with
  | EvMutexDestroy _ | EvCondDestroy _ => true
  | _ => false
  end.

(** A sub-run [o] between the events [pre] and the closing unlock of
    [get_mutex]. *)
Definition under_get_mutex {A : Type} (pre : list event) (o : outcome A) : outcome A :=
  match o with
  | Done a s t => Done a s (pre ++ t ++ [EvUnlock get_mutex])
  | Waits c t => Waits c (pre ++ t)
  | Fault => Fault
  end.

Definition touches_put_mutex (e : event) : bool :=
  match e with
  | EvLock put_mutex | EvUnlock put_mutex => true
  | _ => false
  end.

(** A queue with messages 4096 and 8192 on the consumer side, and the
    memory that links them. *)
Definition demo_queue : msgqueue_t :=
  mkQueue 16 0 0 false 4096 NULL Head1 Head2 Head2.
Definition demo_heap : gmap Z Z := <[4096 := 8192]> (<[8192 := NULL]> ∅).
Definition demo_state : state := mkState demo_heap 0.

(** A queue that would count: one message, 4096, on the producer side and
    [msg_cnt] 1. *)
Definition counted_queue : msgqueue_t :=
  mkQueue 1 1 0 false NULL 4096 Head1 Head2 (Link 4096).
Definition counted_state : state := mkState (<[4096 := NULL]> ∅) 0.

(** What holds of a queue however it has been used: the count is 0 and
    the two sides are the two list heads. *)
Definition queue_shape (q : msgqueue_t) : Prop :=
  msg_cnt q = 0 /\ is_head (get_head q) /\ is_head (put_head q) /\
  get_head q <> put_head q.

(** ** More of thrdpool.c *)

(** Every environment call of [thrdpool_create] succeeds. *)
Definition env_all_ok (env : pool_env) : Prop :=
  pool_malloc_ok env = true /\ malloc_ok (queue_env env) = true /\
  get_mutex_init (queue_env env) = 0 /\ put_mutex_init (queue_env env) = 0 /\
  get_cond_init (queue_env env) = 0 /\ put_cond_init (queue_env env) = 0 /\
  pool_mutex_init env = 0 /\ key_create env = 0 /\ attr_init env = 0 /\
  forall i, spawn_ret env i = 0.

(** The pool is allocated and its queue created. *)
Definition env_queue_ok (env : pool_env) : Prop :=
  pool_malloc_ok env = true /\ malloc_ok (queue_env env) = true /\
  get_mutex_init (queue_env env) = 0 /\ put_mutex_init (queue_env env) = 0 /\
  get_cond_init (queue_env env) = 0 /\ put_cond_init (queue_env env) = 0.

Definition queue_init_trace : list event :=
  [EvMutexInit get_mutex 0; EvMutexInit put_mutex 0;
   EvCondInit get_cond 0; EvCondInit put_cond 0].

Definition stack_trace (stack : Z) : list event :=
  if stack =? 0 then [] else [EvAttrSetStackSize stack].




(** [thrdpool_in_pool]: [specific] is what [pthread_getspecific(pool->key)]
    gives the calling thread and [pool_addr] is the pool pointer. *)
Definition thrdpool_in_pool (specific pool_addr : Z) : bool :=
  specific =? pool_addr.

(** The [while (1)] loop of [thrdpool_destory].  [pending] is the caller's
    hook, null or a function of the pointer to the entry's task; code
    outside the pool, it is an argument.  The result is [None] when the
    loop has not ended within [fuel] iterations. *)
Fixpoint drain_loop (fuel : nat) (pending : option (Z -> M unit))
    (pool : thrdpool_t) : M (option thrdpool_t) :=
  match fuel with
  | O => mret None
  | S fuel =>
      '(entry, q) ← msgqueue_get (msgqueue pool);
      let pool := with_msgqueue q pool in
      if is_null entry then mret (Some pool)
      else
        match pending with
        | Some hook => hook (entry + OFF_ROUTINE)
        | None => mret tt
        end;;
        emit (EvFree (BMsg entry));;
        drain_loop fuel pending pool
  end.

(** [self] is [pthread_self()]. *)
Definition thrdpool_destory (fuel : nat) (specific pool_addr self : Z)
    (pending : option (Z -> M unit)) (pool : thrdpool_t) : M (option thrdpool_t) :=
  let in_pool := thrdpool_in_pool specific pool_addr in
  pool ← __thrdpool_terminate self in_pool pool;
  r ← drain_loop fuel pending pool;
  match r with
  | None => mret None
  | Some pool =>
      emit EvKeyDelete;;
      emit (EvMutexDestroy pool_mutex);;
      msgqueue_destory (msgqueue pool);;
      when (negb in_pool) (emit (EvFree BPool));;
      mret (Some pool)
  end.

(** The loop of [__thrdpool_routine].  [call rt cx pool] is the call
    [task_routine(task_context)] of a task, code outside the pool that may
    use the pool.  The result is [None] when the loop has not ended within
    [fuel] iterations, [Some (true, _)] when the worker has freed the pool
    and returned, [Some (false, _)] when it has left the loop. *)
Fixpoint routine_loop (fuel : nat) (call : Z -> Z -> thrdpool_t -> M thrdpool_t)
    (pool : thrdpool_t) : M (option (bool * thrdpool_t)) :=
  match fuel with
  | O => mret None
  | S fuel =>
      match terminate pool with
      | Some _ => mret (Some (false, pool))
      | None =>
          '(entry, q) ← msgqueue_get (msgqueue pool);
          let pool := with_msgqueue q pool in
          if is_null entry then mret (Some (false, pool))
          else
            task_routine ← read_cell (entry + OFF_ROUTINE);
            task_context ← read_cell (entry + OFF_CONTEXT);
            emit (EvFree (BMsg entry));;
            pool ← call task_routine task_context pool;
            if nthreads pool =? 0
            then emit (EvFree BPool);; mret (Some (true, pool))
            else routine_loop fuel call pool
      end
  end.

(** [pthread_setspecific(pool->key, pool)] makes [pool_addr] the value the
    worker's thread sees under the key: every task it runs is called with
    that value ([call]'s first argument). *)
Definition __thrdpool_routine (fuel : nat)
    (call : Z -> Z -> Z -> thrdpool_t -> M thrdpool_t) (self pool_addr : Z)
    (pool : thrdpool_t) : M (option (bool * thrdpool_t)) :=
  let specific := pool_addr in
  r ← routine_loop fuel (call specific) pool;
  match r with
  | None => mret None
  | Some (true, pool) => mret (Some (true, pool))
  | Some (false, pool) =>
      pool ← __thrdpool_routine_exit self pool;
      mret (Some (false, pool))
  end.

Fixpoint thrdpool_schedules (jobs : list (Z * thrdpool_task)) (pool : thrdpool_t)
  : M thrdpool_t :=
  match jobs with
  | [] => mret pool
  | (buf, task) :: jobs =>
      '(_, pool) ← thrdpool_schedule buf task pool;
      thrdpool_schedules jobs pool
  end.

(** What the drain loop leaves in the trace for the entries [lc]: per
    entry the get, the hook's events and the free; then the last get,
    which finds nothing. *)
Definition drain_trace (tr : Z -> list event) (lc : list Z) : list event :=
  concat ((fun a => [EvLock get_mutex; EvUnlock get_mutex] ++
                    tr (a + OFF_ROUTINE) ++ [EvFree (BMsg a)]) <$> lc)
  ++ [EvLock get_mutex; EvLock put_mutex; EvUnlock put_mutex; EvUnlock get_mutex].

(** The hook [pending] only emits the events [tr] gives for its argument. *)
Definition hook_emits (pending : option (Z -> M unit)) (tr : Z -> list event) : Prop :=
  match pending with
  | Some hook => forall p s, hook p s = Done tt s (tr p)
  | None => forall p, tr p = []
  end.




Definition terminate_trace_of (self : Z) (in_pool : bool) : list event :=
  EvLock pool_mutex :: mode_trace ++
  (if in_pool then [EvDetach self] else []) ++ [EvUnlock pool_mutex; EvJoin 0].


(** A task whose routine calls [thrdpool_destory] on the pool at
    [pool_addr] from the thread [self] it runs in. *)
Definition destroying_task (fuel : nat) (pool_addr self : Z)
    (pending : option (Z -> M unit))
  : Z -> Z -> Z -> thrdpool_t -> M thrdpool_t :=
  fun specific _ _ pool =>
    r ← thrdpool_destory fuel specific pool_addr self pending pool;
    mret (default pool r).


Definition demo_task_heap : gmap Z Z :=
  <[4096 := 8192]> (<[4104 := 11]> (<[4112 := 12]>
  (<[8192 := NULL]> (<[8200 := 21]> (<[8208 := 22]> ∅))))).
Definition demo_task_state : state := mkState demo_task_heap 0.

(** What the get that finds both sides empty leaves in the trace. *)
Definition last_get_trace : list event :=
  [EvLock get_mutex; EvLock put_mutex; EvUnlock put_mutex; EvUnlock get_mutex].


(** * Properties *)

Ltac run :=
  unfold mbind, mret, M_bind, M_ret, emit, when, wait_while,
         write_errno, write_cell, read_cell in *;
  simpl in *.

Ltac offsets := unfold OFF_ROUTINE, OFF_CONTEXT, OFF_LINK, PTR_SIZE in *.

(** ** Runs that returned *)

Lemma bind_done {A B : Type} (m : M A) (k : A -> M B) (s s' : state) (b : B)
    (t : list event) :
  (m ≫= k) s = Done b s' t ->
  exists a s1 t1 t2, m s = Done a s1 t1 /\ k a s1 = Done b s' t2 /\ t = t1 ++ t2.
Proof.
  unfold mbind, M_bind.
  destruct (m s) as [a s1 t1| |]; [|done..].
  destruct (k a s1) as [b' s2 t2| |] eqn:E; [|done..].
  intros [= <- <- <-]. by exists a, s1, t1, t2.
Qed.

Lemma emit_done (e : event) (s s' : state) (u : unit) (t : list event) :
  emit e s = Done u s' t -> s' = s.
Proof. by intros [= _ <- _]. Qed.

(** Inversion of one bind of a run that returned: [a] names what the first
    call returned and [Hm] its equation; [H] becomes the rest of the run. *)
Tactic Notation "bind_inv" hyp(H) "as" simple_intropattern(a) ident(Hm) :=
  let s1 := fresh "s" in
  let Hk := fresh "Hk" in
  apply bind_done in H;
  destruct H as (a & s1 & ? & ? & Hm & Hk & _);
  rename Hk into H.

(** The same when the first call is an [emit]. *)
Ltac emit_inv H :=
  let Hm := fresh "Hm" in
  bind_inv H as ? Hm; apply emit_done in Hm; subst.

Lemma when_done (b : bool) (e : event) (s s' : state) (u : unit) (t : list event) :
  when b (emit e) s = Done u s' t -> s' = s.
Proof. destruct b; by intros [= _ <- _]. Qed.

(** ** Arithmetic of [size_t] *)

Lemma size_sub_zero_one : size_sub 0 1 = SIZE_MAX.
Proof. reflexivity. Qed.

Lemma size_sub_nonneg (a b : Z) : 0 <= size_sub a b.
Proof.
  unfold size_sub, size_wrap.
  apply Z.mod_pos_bound. reflexivity.
Qed.

Lemma size_add_small (a : Z) : 0 <= a < SIZE_MAX -> size_add a 1 = a + 1.
Proof.
  intros H. unfold size_add, size_wrap. apply Z.mod_small.
  unfold SIZE_MAX in H. lia.
Qed.

(** ** Loads, stores and the closed forms of the queue operations *)

Lemma set_heap_same (s : state) : set_heap (heap s) s = s.
Proof. by destruct s. Qed.

Lemma load_slot_value (q : msgqueue_t) (r : ref) (s : state) :
  load q r s =
  match slot_value q (heap s) r with
  | Some v => Done v s []
  | None => Fault
  end.
Proof. by destruct r. Qed.

Lemma store_run (q : msgqueue_t) (r : ref) (v : Z) (s : state) :
  store q r v s = Done (store_queue q r v) (set_heap (store_heap (heap s) r v) s) [].
Proof. destruct r; run; by rewrite ?set_heap_same. Qed.

(** A store through a slot changes no field but the two list heads. *)
Lemma store_queue_fields (q : msgqueue_t) (r : ref) (v : Z) :
  get_head (store_queue q r v) = get_head q /\
  put_head (store_queue q r v) = put_head q /\
  put_tail (store_queue q r v) = put_tail q /\
  msg_cnt (store_queue q r v) = msg_cnt q /\
  msg_max (store_queue q r v) = msg_max q /\
  link_off (store_queue q r v) = link_off q /\
  nonblock (store_queue q r v) = nonblock q.
Proof. by destruct r. Qed.

Lemma msgqueue_put_run (msg : Z) (q : msgqueue_t) (s : state) :
  msgqueue_put msg q s =
  if queue_full q && negb (nonblock q) then Waits put_cond [EvLock put_mutex]
  else
    let link := msg + link_off q in
    Done (with_put_tail (Link link) (store_queue q (put_tail q) link))
         (set_heap (store_heap (<[link := NULL]> (heap s)) (put_tail q) link) s)
         put_trace.
Proof.
  unfold msgqueue_put. run.
  destruct (queue_full q && negb (nonblock q)); [done|].
  destruct (put_tail q); run; by destruct s.
Qed.

Lemma msgqueue_swap_run (q : msgqueue_t) (s : state) :
  __msgqueue_swap q s =
  if (msg_cnt q =? 0) && negb (nonblock q) then Waits get_cond [EvLock put_mutex]
  else Done (msg_cnt q, swapped q) s (swap_trace q).
Proof.
  unfold __msgqueue_swap, swap_trace, queue_full. run.
  destruct ((msg_cnt q =? 0) && negb (nonblock q)); [done|].
  by destruct (msg_cnt q >? size_sub (msg_max q) 1).
Qed.

(** A queue whose [msg_cnt] is 0 is never full, whatever [msg_max] is. *)
Lemma queue_full_at_zero (q : msgqueue_t) : msg_cnt q = 0 -> queue_full q = false.
Proof.
  intros H. unfold queue_full. rewrite H.
  pose proof (size_sub_nonneg (msg_max q) 1). lia.
Qed.

Lemma queue_full_unbounded (q : msgqueue_t) :
  msg_max q = 0 -> in_size_t (msg_cnt q) -> queue_full q = false.
Proof.
  intros Hm Hc. unfold queue_full. rewrite Hm, size_sub_zero_one.
  unfold in_size_t, SIZE_MAX in *. lia.
Qed.

(** [msgqueue_get] when the consumer-side list is empty and [msg_cnt] is 0:
    a null in nonblock mode, a wait on [get_cond] otherwise. *)
Lemma msgqueue_get_uncounted (q : msgqueue_t) (s : state) :
  slot_value q (heap s) (get_head q) = Some NULL -> msg_cnt q = 0 ->
  msgqueue_get q s =
  if nonblock q
  then Done (NULL, swapped q) s
            [EvLock get_mutex; EvLock put_mutex; EvUnlock put_mutex;
             EvUnlock get_mutex]
  else Waits get_cond [EvLock get_mutex; EvLock put_mutex].
Proof.
  intros Hnull Hc.
  unfold msgqueue_get, mbind, M_bind at 1 2 3. simpl.
  rewrite load_slot_value, Hnull. simpl.
  unfold mbind, M_bind. rewrite msgqueue_swap_run, Hc.
  unfold swap_trace. rewrite (queue_full_at_zero q Hc).
  by destruct (nonblock q).
Qed.

(** ** Lists of entries *)

#[local] Instance Link_inj : Inj (=) (=) Link.
Proof. by intros a b [= ->]. Qed.

Lemma is_head_not_link (r : ref) (l : list Z) : is_head r -> r ∉ (Link <$> l).
Proof.
  intros Hr Hin. apply list_elem_of_fmap in Hin as (a & -> & _).
  destruct Hr; discriminate.
Qed.

Lemma slots_NoDup (r : ref) (l : list Z) :
  is_head r -> NoDup l -> NoDup (slots r l).
Proof.
  intros Hr Hl. apply NoDup_cons. split; [by apply is_head_not_link|].
  apply NoDup_fmap_2; [apply Link_inj|done].
Qed.

Section Linked.
Context (q : msgqueue_t) (h : gmap Z Z).

(** The slot an entry is reached through holds a value. *)
Lemma linked_first (r : ref) (l : list Z) (last : ref) :
  linked q h r l last -> is_Some (slot_value q h r).
Proof.
  destruct l as [|a l]; simpl.
  - intros [H _]. by eexists.
  - intros (_ & H & _). by eexists.
Qed.

(** Every entry of a list has its link cell in memory. *)
Lemma linked_cells (r : ref) (l : list Z) (last : ref) :
  linked q h r l last -> forall a, a ∈ l -> is_Some (h !! a).
Proof.
  revert r. induction l as [|a l IH]; intros r H b Hb.
  - by apply elem_of_nil in Hb.
  - destruct H as (Ha & Hr & Hl).
    apply elem_of_cons in Hb as [->|Hb]; [|by eapply IH].
    apply (linked_first _ _ _ Hl).
Qed.

(** The closing null sits in one of the slots of the list. *)
Lemma linked_last (r : ref) (l : list Z) (last : ref) :
  linked q h r l last -> last ∈ slots r l /\ slot_value q h last = Some NULL.
Proof.
  revert r. induction l as [|a l IH]; intros r H.
  - destruct H as [H ->]. split; [apply list_elem_of_here|done].
  - destruct H as (Ha & Hr & Hl). destruct (IH _ Hl) as [Hin Hv].
    split; [|done]. by apply list_elem_of_further.
Qed.

(** A list is untouched by writes outside its slots. *)
Lemma linked_frame (q' : msgqueue_t) (h' : gmap Z Z) (r : ref) (l : list Z)
    (last : ref) :
  linked q h r l last ->
  (forall x, x ∈ slots r l -> slot_value q' h' x = slot_value q h x) ->
  linked q' h' r l last.
Proof.
  revert r. induction l as [|a l IH]; intros r H Hf.
  - destruct H as [H ->]. split; [|done].
    rewrite Hf; [done|apply list_elem_of_here].
  - destruct H as (Ha & Hr & Hl). split; [done|]. split.
    + rewrite Hf; [done|apply list_elem_of_here].
    + apply IH; [done|]. intros x Hx. apply Hf. by apply list_elem_of_further.
Qed.

Lemma linked_write_outside (r : ref) (l : list Z) (last : ref) (a v : Z) :
  linked q h r l last -> Link a ∉ slots r l ->
  linked q (<[a := v]> h) r l last.
Proof.
  intros Hl Ha. apply linked_frame; [done|].
  intros [| |b] Hx; simpl; try done.
  apply lookup_insert_ne. by intros ->.
Qed.

(** Writing a new, null-terminated link into the last slot appends. *)
Lemma linked_snoc (q' : msgqueue_t) (h' : gmap Z Z) (r : ref) (l : list Z)
    (last : ref) (link : Z) :
  linked q h r l last ->
  NoDup (slots r l) ->
  Link link ∉ slots r l ->
  link <> NULL ->
  slot_value q' h' last = Some link ->
  slot_value q' h' (Link link) = Some NULL ->
  (forall x, x <> last -> x <> Link link ->
             slot_value q' h' x = slot_value q h x) ->
  linked q' h' r (l ++ [link]) (Link link).
Proof.
  intros H Hnd Hout Hlink Hlast Hnew Hframe.
  revert r H Hnd Hout. induction l as [|a l IH]; intros r H Hnd Hout.
  - destruct H as [H ->]. simpl. by repeat split.
  - destruct H as (Ha & Hr & Hl).
    apply NoDup_cons in Hnd as [Hr_out Hnd].
    apply not_elem_of_cons in Hout as [Hr_link Hout].
    simpl. split; [done|]. split.
    + rewrite Hframe; [done| |done].
      intros ->. apply Hr_out. by apply (linked_last _ _ _ Hl).
    + by apply IH.
Qed.
End Linked.

(** A cell that is the link of no queued entry is in no slot of a list
    that starts at one of the two heads. *)
Lemma not_in_slots (r : ref) (l : list Z) (a : Z) :
  is_head r -> a ∉ l -> Link a ∉ slots r l.
Proof.
  intros Hr Ha Hin. apply elem_of_cons in Hin as [Hin|Hin].
  - destruct Hr; congruence.
  - by apply list_elem_of_fmap in Hin as (b & [= <-] & Hb).
Qed.

Lemma queue_lists_write_outside (q : msgqueue_t) (h : gmap Z Z) (lc lp : list Z)
    (a v : Z) :
  a ∉ lc ++ lp -> queue_lists q h lc lp -> queue_lists q (<[a := v]> h) lc lp.
Proof.
  intros Ha (Hgh & Hph & Hne & [lastc Hc] & Hp & Hnd).
  apply not_elem_of_app in Ha as [Hac Hap].
  unfold queue_lists. split_and!; try done.
  - exists lastc. apply linked_write_outside; [done|]. by apply not_in_slots.
  - apply linked_write_outside; [done|]. by apply not_in_slots.
Qed.

Lemma queue_lists_fresh (maxlen linkoff : Z) (h : gmap Z Z) :
  queue_lists (fresh_queue maxlen linkoff) h [] [].
Proof.
  unfold queue_lists. simpl. split_and!; try done.
  - by left.
  - by right.
  - by exists Head1.
  - apply NoDup_nil_2.
Qed.

(** ** msgqueue_put *)

Lemma msgqueue_put_keeps_msg_cnt (msg : Z) (q q' : msgqueue_t) (s s' : state)
    (t : list event) :
  msgqueue_put msg q s = Done q' s' t -> msg_cnt q' = msg_cnt q.
Proof.
  rewrite msgqueue_put_run.
  destruct (queue_full q && negb (nonblock q)); [done|].
  intros [= <- _ _]. by destruct (put_tail q).
Qed.

(** C1, as the code behaves: a call of [msgqueue_put] either waits on
    [put_cond] or returns with [msg_cnt] exactly as it found it: the
    function has no increment.  On a queue fresh from
    [msgqueue_create(8, 0)], whose [msg_cnt] is 0, the put links message
    4096 and returns with [msg_cnt] still 0, not 1. *)
Lemma msgqueue_put_leaves_msg_cnt_at_zero :
  (forall msg q s,
     msgqueue_put msg q s = Waits put_cond [EvLock put_mutex] \/
     exists q' s', msgqueue_put msg q s = Done q' s' put_trace /\
                   msg_cnt q' = msg_cnt q) /\
  exists q' s',
    msgqueue_put 4096 (fresh_queue 8 0) st0 = Done q' s' put_trace /\
    msg_cnt (fresh_queue 8 0) = 0 /\ msg_cnt q' = 0 /\
    put_tail q' = Link 4096 /\ head2 q' = 4096.
Proof.
  split.
  - intros msg q s. rewrite msgqueue_put_run.
    destruct (queue_full q && negb (nonblock q)); [by left|right].
    do 2 eexists. split; [done|].
    simpl. apply store_queue_fields.
  - do 2 eexists. split; [reflexivity|]. by repeat split.
Qed.

(** A put that does not wait links its message at the end of the
    producer-side list and leaves the consumer-side list, the counters and
    the mode alone.  The message is one that is not queued already. *)
Lemma msgqueue_put_appends (msg : Z) (q : msgqueue_t) (s : state) (lc lp : list Z) :
  queue_lists q (heap s) lc lp ->
  msg + link_off q <> NULL ->
  msg + link_off q ∉ lc ++ lp ->
  queue_full q && negb (nonblock q) = false ->
  exists q' s',
    msgqueue_put msg q s = Done q' s' put_trace /\
    queue_lists q' (heap s') lc (lp ++ [msg + link_off q]) /\
    (forall a, a <> msg + link_off q -> a ∉ lp -> heap s' !! a = heap s !! a) /\
    msg_max q' = msg_max q /\ link_off q' = link_off q /\
    msg_cnt q' = msg_cnt q /\ nonblock q' = nonblock q /\ errno s' = errno s.
Proof.
  intros (Hgh & Hph & Hne & [lastc Hc] & Hp & Hnd) Hnz Hnew_entry Hguard.
  rewrite msgqueue_put_run, Hguard. cbv zeta.
  set (link := msg + link_off q) in *.
  set (T := put_tail q) in *.
  set (q' := with_put_tail (Link link) (store_queue q T link)).
  set (h' := store_heap (<[link:=NULL]> (heap s)) T link).
  exists q', (set_heap h' s). split; [done|].
  destruct (linked_last _ _ _ _ _ Hp) as [HT HTnull].
  apply NoDup_app in Hnd as (Hndc & Hdisj & Hndp).
  apply not_elem_of_app in Hnew_entry as [Hlc Hlp].
  pose proof (not_in_slots _ _ _ Hgh Hlc) as Hout_c.
  pose proof (not_in_slots _ _ _ Hph Hlp) as Hout_p.
  assert (HTlink : T <> Link link) by (by intros E; rewrite E in HT).
  assert (Hlast : slot_value q' h' T = Some link).
  { subst q' h'. destruct T; simpl; try done. by rewrite lookup_insert_eq. }
  assert (Hnew : slot_value q' h' (Link link) = Some NULL).
  { subst q' h'. destruct T as [| |a]; simpl; rewrite ?lookup_insert_eq; try done.
    rewrite lookup_insert_ne; [by rewrite lookup_insert_eq|congruence]. }
  assert (Hframe : forall x, x <> T -> x <> Link link ->
                             slot_value q' h' x = slot_value q (heap s) x).
  { intros x HxT Hxl. subst q' h'.
    destruct x as [| |a], T as [| |b]; simpl; try done;
      rewrite ?lookup_insert_ne; congruence. }
  change (heap (set_heap h' s)) with h'.
  split; [|split].
  - unfold queue_lists.
    assert (Egh : get_head q' = get_head q) by (subst q'; by destruct T).
    assert (Eph : put_head q' = put_head q) by (subst q'; by destruct T).
    assert (Ept : put_tail q' = Link link) by done.
    rewrite Egh, Eph, Ept.
    split_and!; try done.
    + exists lastc. apply linked_frame with (q := q) (h := heap s); [done|].
      intros x Hx. apply Hframe; [|by intros ->].
      intros ->. apply elem_of_cons in Hx as [Hx|Hx];
        apply elem_of_cons in HT as [HT|HT].
      * congruence.
      * rewrite Hx in HT. by apply is_head_not_link in HT.
      * rewrite HT in Hx. by apply is_head_not_link in Hx.
      * apply list_elem_of_fmap in Hx as (a & Ea & Ha).
        apply list_elem_of_fmap in HT as (b & Eb & Hb).
        rewrite Ea in Eb. injection Eb as ->. by apply (Hdisj b).
    + apply linked_snoc with (q := q) (h := heap s) (last := T); try done.
      by apply slots_NoDup.
    + apply NoDup_app. split; [done|]. split.
      * intros x Hx Hin. apply elem_of_app in Hin as [Hin|Hin].
        -- by apply (Hdisj x).
        -- by apply list_elem_of_singleton in Hin as ->.
      * apply NoDup_app. split; [done|]. split; [|apply NoDup_singleton].
        intros x Hx Hin. by apply list_elem_of_singleton in Hin as ->.
  - intros a Ha Hna. subst h'.
    destruct T as [| |b]; simpl; rewrite ?lookup_insert_ne; try done.
    intros ->. apply elem_of_cons in HT as [HT|HT].
    + destruct Hph; congruence.
    + by apply list_elem_of_fmap in HT as (b' & [= <-] & Hb).
  - subst q'. by destruct T.
Qed.

(** C6: on a queue with [msg_max == 0] the fullness guard
    [msg_cnt > msg_max - 1] of [msgqueue_put] is false for every [size_t]
    value of [msg_cnt] ([0 - 1] wraps to [SIZE_MAX]), so the put returns
    without waiting on [put_cond], in blocking mode too. *)
Theorem msgqueue_put_unbounded_never_waits (msg : Z) (q : msgqueue_t) (s : state) :
  msg_max q = 0 -> in_size_t (msg_cnt q) ->
  size_sub (msg_max q) 1 = SIZE_MAX /\
  queue_full q = false /\
  (forall t, msgqueue_put msg q s <> Waits put_cond t) /\
  exists q' s', msgqueue_put msg q s = Done q' s' put_trace.
Proof.
  intros Hm Hc.
  rewrite msgqueue_put_run, (queue_full_unbounded q Hm Hc), Hm. simpl.
  repeat split; [done | eauto].
Qed.

Lemma msgqueue_put_unbounded_never_waits_witness :
  msg_max (fresh_queue 0 0) = 0 /\ in_size_t (msg_cnt (fresh_queue 0 0)) /\
  queue_full (fresh_queue 0 0) = false.
Proof.
  assert (Hm : msg_max (fresh_queue 0 0) = 0) by reflexivity.
  assert (Hc : in_size_t (msg_cnt (fresh_queue 0 0))) by (by vm_compute).
  split; [exact Hm|]. split; [exact Hc|].
  exact (proj1 (proj2 (msgqueue_put_unbounded_never_waits 4096 _ st0 Hm Hc))).
Defined.

(** ** __msgqueue_swap and msgqueue_get *)

(** C7: when [__msgqueue_swap] returns, [put_head] and [put_tail] both
    equal the [get_head] of entry and [msg_cnt] is 0; the producer-side
    list is then empty, given what holds at the one place the swap is
    called from: [msgqueue_get] calls it only when [*get_head] is null,
    that is on an empty consumer-side list. *)
Theorem msgqueue_swap_postcondition (q q' : msgqueue_t) (s s' : state) (cnt : Z)
    (t : list event) :
  __msgqueue_swap q s = Done (cnt, q') s' t ->
  put_head q' = get_head q /\ put_tail q' = get_head q /\
  msg_cnt q' = 0 /\
  (slot_value q (heap s) (get_head q) = Some NULL ->
   linked q' (heap s') (put_head q') [] (put_tail q')).
Proof.
  rewrite msgqueue_swap_run.
  destruct ((msg_cnt q =? 0) && negb (nonblock q)); [done|].
  intros [= _ <- <- _]. simpl.
  repeat split. by destruct (get_head q).
Qed.

Lemma msgqueue_swap_postcondition_witness :
  let q := with_nonblock true (fresh_queue 16 0) in
  let q' := swapped q in
  put_head q' = get_head q /\ put_tail q' = get_head q /\
  msg_cnt q' = 0 /\
  (slot_value q (heap st0) (get_head q) = Some NULL ->
   linked q' (heap st0) (put_head q') [] (put_tail q')).
Proof.
  exact (msgqueue_swap_postcondition
           (with_nonblock true (fresh_queue 16 0)) _ st0 st0 0 _ eq_refl).
Defined.

(** The swap hands the producer-side list over to the consumer side. *)
Lemma msgqueue_swap_moves_list (q : msgqueue_t) (s : state) (lp : list Z) :
  queue_lists q (heap s) [] lp ->
  (msg_cnt q =? 0) && negb (nonblock q) = false ->
  __msgqueue_swap q s = Done (msg_cnt q, swapped q) s (swap_trace q) /\
  queue_lists (swapped q) (heap s) lp [].
Proof.
  intros (Hgh & Hph & Hne & [lastc [Hc ->]] & Hp & Hnd) Hguard.
  rewrite msgqueue_swap_run, Hguard. split; [done|].
  unfold queue_lists. simpl. split_and!; try done.
  - exists (put_tail q).
    apply linked_frame with (q := q) (h := heap s); [done|].
    by intros [| |a] _.
  - by rewrite app_nil_r.
Qed.

(** On a non-empty consumer-side list [msgqueue_get] returns the message of
    its first entry and unlinks it; the producer side is not touched. *)
Lemma msgqueue_get_pops_head (q : msgqueue_t) (s : state) (a : Z) (lc lp : list Z) :
  queue_lists q (heap s) (a :: lc) lp ->
  exists q',
    msgqueue_get q s
      = Done (a - link_off q, q') s [EvLock get_mutex; EvUnlock get_mutex] /\
    queue_lists q' (heap s) lc lp /\
    msg_cnt q' = msg_cnt q /\ nonblock q' = nonblock q /\
    link_off q' = link_off q /\ msg_max q' = msg_max q.
Proof.
  intros (Hgh & Hph & Hne & [lastc (Ha & Hslot & Hc)] & Hp & Hnd).
  destruct (linked_first _ _ _ _ _ Hc) as [next Hnext]. simpl in Hnext.
  exists (store_queue q (get_head q) next).
  assert (Hrun : msgqueue_get q s
    = Done (a - link_off q, store_queue q (get_head q) next) s
           [EvLock get_mutex; EvUnlock get_mutex]).
  { unfold msgqueue_get, mbind, M_bind at 1 2 3. simpl.
    rewrite load_slot_value, Hslot. simpl.
    unfold is_null. destruct (Z.eqb_spec a NULL) as [|_]; [done|]. simpl.
    unfold pop_head, mbind, M_bind, read_cell.
    rewrite load_slot_value, Hslot, Hnext, store_run.
    destruct Hgh as [E|E]; rewrite E; simpl; by rewrite set_heap_same. }
  split; [done|].
  assert (Hother : forall x, x <> get_head q ->
            slot_value (store_queue q (get_head q) next) (heap s) x
            = slot_value q (heap s) x).
  { intros x Hx. destruct Hgh as [E|E]; rewrite E in *;
      by destruct x as [| |b]. }
  assert (Hhere : slot_value (store_queue q (get_head q) next) (heap s) (get_head q)
                  = Some next).
  { by destruct Hgh as [E|E]; rewrite E. }
  assert (Hlinks : forall r l last, linked q (heap s) (Link r) l last ->
            linked (store_queue q (get_head q) next) (heap s) (Link r) l last).
  { intros r l last Hl. apply linked_frame with (q := q) (h := heap s); [done|].
    intros x Hx. apply Hother. intros ->.
    apply elem_of_cons in Hx as [Hx|Hx].
    - destruct Hgh; congruence.
    - by apply is_head_not_link in Hx. }
  destruct (store_queue_fields q (get_head q) next)
    as (Egh & Eph & Ept & Ecnt & Emax & Eoff & Enb).
  split; [|done].
  unfold queue_lists.
  rewrite Egh, Eph, Ept.
  apply NoDup_cons in Hnd as [_ Hnd].
  split_and!; try done.
  - destruct lc as [|b lc]; simpl in Hc.
    + destruct Hc as [Hnull ->]. exists (get_head q). simpl.
      split; [|done]. rewrite Hhere. simpl in Hnull. congruence.
    + destruct Hc as (Hb & Hab & Hc). exists lastc. simpl.
      split; [done|]. split.
      * rewrite Hhere. simpl in Hab. congruence.
      * by apply Hlinks.
  - destruct (linked_last _ _ _ _ _ Hp) as [HT _].
    apply linked_frame with (q := q) (h := heap s); [done|].
    intros x Hx. apply Hother. intros ->.
    apply elem_of_cons in Hx as [Hx|Hx]; [congruence|].
    by apply is_head_not_link in Hx.
Qed.

(** ** Runs of puts on a fresh queue *)

Lemma never_counted_fresh (maxlen linkoff : Z) :
  never_counted (fresh_queue maxlen linkoff).
Proof. by repeat split. Qed.

Lemma msgqueue_put_never_counted (msg : Z) (q : msgqueue_t) (s : state) :
  never_counted q ->
  exists q' s' t, msgqueue_put msg q s = Done q' s' t /\ never_counted q'.
Proof.
  intros (Hg & Hh & Hc & Hn & Ht).
  rewrite msgqueue_put_run, (queue_full_at_zero q Hc). simpl.
  do 3 eexists. split; [reflexivity|].
  destruct (put_tail q); by repeat split.
Qed.

Lemma msgqueue_puts_never_counted (msgs : list Z) (q : msgqueue_t) (s : state) :
  never_counted q ->
  exists q' s' t, msgqueue_puts msgs q s = Done q' s' t /\ never_counted q'.
Proof.
  revert q s. induction msgs as [|m ms IH]; intros q s Hq.
  - by exists q, s, [].
  - destruct (msgqueue_put_never_counted m q s Hq) as (q1 & s1 & t1 & E1 & H1).
    destruct (IH q1 s1 H1) as (q2 & s2 & t2 & E2 & H2).
    exists q2, s2, (t1 ++ t2). split; [|done].
    simpl. unfold mbind, M_bind. by rewrite E1, E2.
Qed.

Lemma msgqueue_get_never_counted (q : msgqueue_t) (s : state) :
  never_counted q ->
  msgqueue_get q s = Waits get_cond [EvLock get_mutex; EvLock put_mutex].
Proof.
  intros (Hg & Hh & Hc & Hn & Ht).
  rewrite msgqueue_get_uncounted, ?Hn; [done| |done].
  rewrite Hg. simpl. by rewrite Hh.
Qed.

(** C2, as the code behaves: after [put(4096)], [put(8192)] on a queue
    fresh from [msgqueue_create(16, 0)], the first [msgqueue_get] does not
    return 4096: it suspends in the wait loop of [__msgqueue_swap], because
    [msg_cnt] is still 0.  The same holds after any run of puts on any
    fresh queue. *)
Lemma msgqueue_fifo_first_get_waits :
  (q ← msgqueue_create ok_env 16 0;
   match q with
   | Some q => q ← msgqueue_puts [4096; 8192] q; msgqueue_get q
   | None => mret (NULL, fresh_queue 16 0)
   end) st0
  = Waits get_cond
      [EvMutexInit get_mutex 0; EvMutexInit put_mutex 0;
       EvCondInit get_cond 0; EvCondInit put_cond 0;
       EvLock put_mutex; EvUnlock put_mutex; EvSignal get_cond;
       EvLock put_mutex; EvUnlock put_mutex; EvSignal get_cond;
       EvLock get_mutex; EvLock put_mutex] /\
  forall maxlen linkoff msgs s,
    exists q1 s1 t1,
      msgqueue_puts msgs (fresh_queue maxlen linkoff) s = Done q1 s1 t1 /\
      msg_cnt q1 = 0 /\
      msgqueue_get q1 s1 = Waits get_cond [EvLock get_mutex; EvLock put_mutex].
Proof.
  split; [reflexivity|].
  intros maxlen linkoff msgs s.
  destruct (msgqueue_puts_never_counted msgs _ s (never_counted_fresh maxlen linkoff))
    as (q & s1 & t1 & E & Hq).
  exists q, s1, t1. split; [done|]. split.
  - apply Hq.
  - by apply msgqueue_get_never_counted.
Qed.

(** C3, as the code behaves: on a queue fresh from
    [msgqueue_create(16, 0)] and switched to nonblock, after
    [msgqueue_put(4096)] the producer-side list holds the message, and
    [msgqueue_get] returns the null sentinel all the same: the swap reports
    the [msg_cnt] that the put never raised.  (The list has moved to the
    consumer side by then, so the next get would find it.)  In general, in
    nonblock mode with [msg_cnt] at 0 and nothing on the consumer side, the
    get returns null whatever the producer-side list [lp] holds. *)
Lemma msgqueue_get_null_with_message_queued :
  (exists q0 q1 s1 q2 s2 t2,
     msgqueue_set_nonblock (fresh_queue 16 0) st0 = Done q0 st0 mode_trace /\
     msgqueue_put 4096 q0 st0 = Done q1 s1 put_trace /\
     queue_lists q1 (heap s1) [] [4096] /\
     msgqueue_get q1 s1 = Done (NULL, q2) s2 t2 /\
     queue_lists q2 (heap s2) [4096] []) /\
  forall q s lp,
    queue_lists q (heap s) [] lp -> msg_cnt q = 0 -> nonblock q = true ->
    exists t, msgqueue_get q s = Done (NULL, swapped q) s t.
Proof.
  split.
  - do 6 eexists. split; [reflexivity|]. split; [reflexivity|].
    split; [|split; [reflexivity|]].
    + unfold queue_lists. simpl. split_and!; try done.
      * by left.
      * by right.
      * by exists Head1.
      * apply NoDup_singleton.
    + unfold queue_lists. simpl. split_and!; try done.
      * by right.
      * by left.
      * by exists (Link 4096).
      * apply NoDup_singleton.
  - intros q s lp (_ & _ & _ & [last [Hnull _]] & _) Hc Hnb.
    rewrite msgqueue_get_uncounted, Hnb by done. eauto.
Qed.

(** ** msgqueue_destory *)

(** C10: [msgqueue_destory] destroys the two mutexes and the two condition
    variables and frees the queue struct, and nothing else: message memory
    is left as it was, so whatever lists [lc] and [lp] the queue held are
    still linked there; no message is freed; the call returns no value. *)
Theorem msgqueue_destory_leaves_entries (q : msgqueue_t) (s : state) :
  msgqueue_destory q s = Done tt s destory_trace /\
  (forall a, ~ In (EvFree (BMsg a)) destory_trace) /\
  (forall s' t, msgqueue_destory q s = Done tt s' t ->
     heap s' = heap s /\
     forall lc lp, queue_lists q (heap s) lc lp -> queue_lists q (heap s') lc lp).
Proof.
  split; [reflexivity|]. split.
  - intros a H. simpl in H. intuition discriminate.
  - intros s' t [= <- _]. by split.
Qed.

(** ** set_nonblock / set_block *)

(** C5: [msgqueue_set_nonblock] followed by [msgqueue_set_block] leaves a
    queue in blocking mode and changes nothing else, so on a queue that was
    blocking the pair gives back the very same queue and memory: every
    later put and get runs as it would have without the pair; a put on a
    full queue waits on [put_cond], a get on an empty one on [get_cond]. *)
Theorem msgqueue_set_nonblock_set_block (q : msgqueue_t) (s : state) :
  exists q',
    (q1 ← msgqueue_set_nonblock q; msgqueue_set_block q1) s
      = Done q' s (mode_trace ++ mode_trace) /\
    q' = with_nonblock false q /\
    (nonblock q = false ->
       q' = q /\
       (forall msg, msgqueue_put msg q' s = msgqueue_put msg q s) /\
       msgqueue_get q' s = msgqueue_get q s) /\
    (forall msg, queue_full q = true ->
       msgqueue_put msg q' s = Waits put_cond [EvLock put_mutex]) /\
    (slot_value q (heap s) (get_head q) = Some NULL -> msg_cnt q = 0 ->
       msgqueue_get q' s = Waits get_cond [EvLock get_mutex; EvLock put_mutex]).
Proof.
  exists (with_nonblock false q). split; [reflexivity|]. split; [reflexivity|].
  split; [|split].
  - intros Hb.
    assert (E : with_nonblock false q = q) by (destruct q; simpl in *; by subst).
    by rewrite E.
  - intros msg Hf. rewrite msgqueue_put_run.
    change (queue_full (with_nonblock false q)) with (queue_full q).
    by rewrite Hf.
  - intros Hnull Hc. by rewrite msgqueue_get_uncounted.
Qed.

(** ** thrdpool.c *)

(** C9: [thrdpool_increase] returns 0 with [nthreads] one higher and the
    rest of the pool as it was when [pthread_create] succeeds; when it
    fails (or [pthread_attr_init] before it), the call returns -1 with the
    error code in [errno] and the pool unchanged.  [nthreads] counts
    threads, so it is below [SIZE_MAX]. *)
Theorem thrdpool_increase_nthreads (attr_ret create_ret : Z) (pool : thrdpool_t)
    (s : state) :
  0 <= nthreads pool < SIZE_MAX ->
  exists t,
    thrdpool_increase attr_ret create_ret pool s =
    if (attr_ret =? 0) && (create_ret =? 0)
    then Done (0, mkPool (msgqueue pool) (nthreads pool + 1) (stacksize pool)
                         (tid pool) (terminate pool)) s t
    else Done (-1, pool)
              (set_errno (if attr_ret =? 0 then create_ret else attr_ret) s) t.
Proof.
  intros Hn. unfold thrdpool_increase. run.
  pose proof (size_add_small _ Hn) as Hw.
  destruct (attr_ret =? 0); simpl; [|eauto].
  destruct (stacksize pool =? 0), (create_ret =? 0); simpl;
    unfold with_nthreads; rewrite ?Hw; eauto.
Qed.

Lemma thrdpool_increase_nthreads_witness :
  0 <= nthreads (demo_pool 0) < SIZE_MAX /\
  (exists t, thrdpool_increase 0 0 (demo_pool 0) st0 =
             Done (0, mkPool (fresh_queue 0 0) 1 0 0 None) st0 t) /\
  (exists t, thrdpool_increase 0 11 (demo_pool 0) st0 =
             Done (-1, demo_pool 0) (set_errno 11 st0) t).
Proof.
  assert (H : 0 <= nthreads (demo_pool 0) < SIZE_MAX) by (by vm_compute).
  split; [exact H|]. split.
  - exact (thrdpool_increase_nthreads 0 0 (demo_pool 0) st0 H).
  - exact (thrdpool_increase_nthreads 0 11 (demo_pool 0) st0 H).
Defined.


(** Once no worker is left, an outside terminator always calls
    [pthread_join] on the zero thread id: the [memcpy] has replaced the
    stored id by [__zero_tid], and its return value is never null. *)
Lemma thrdpool_terminate_joins_zero (self : Z) (pool : thrdpool_t) (s : state) :
  nthreads pool = 0 ->
  exists pool',
    __thrdpool_terminate self false pool s = Done pool' s terminate_trace /\
    tid pool' = 0.
Proof.
  intros Hn. unfold __thrdpool_terminate, msgqueue_set_nonblock. run.
  rewrite Hn. simpl. eauto.
Qed.

(** C4, as the code behaves: with no worker left and thread 7 stored as the
    last to leave, [__thrdpool_terminate] overwrites the stored id with
    zero and joins thread 0; thread 7 is never joined.  With nothing stored
    (id 0) it joins thread 0 as well. *)
Lemma thrdpool_terminate_ignores_last_exiter :
  tid (demo_pool 7) = 7 /\ nthreads (demo_pool 7) = 0 /\
  (exists pool',
     __thrdpool_terminate 99 false (demo_pool 7) st0
       = Done pool' st0 terminate_trace /\ tid pool' = 0) /\
  (exists pool',
     __thrdpool_terminate 99 false (demo_pool 0) st0
       = Done pool' st0 terminate_trace /\ tid pool' = 0) /\
  In (EvJoin 0) terminate_trace /\ ~ In (EvJoin 7) terminate_trace.
Proof.
  repeat split; try (eexists; split; reflexivity).
  - simpl. tauto.
  - intros H. simpl in H. intuition discriminate.
Qed.

(** C8: [thrdpool_schedule] returns -1 and leaves pool, queue and memory
    as they were when [malloc] fails (returns null); when [malloc] returns
    an entry [buf], the call returns 0, the entry is linked as the new
    last entry of the producer-side list, nothing else is added to or
    removed from either list, and the entry holds the two words of the
    caller's task.  The pool is one whose queue [thrdpool_create] made
    ([msgqueue_create(0, 0)]), and the three words [malloc] returned
    overlap the link of no queued entry. *)
Theorem thrdpool_schedule_enqueues_one (buf : Z) (task : thrdpool_task)
    (pool : thrdpool_t) (s : state) (lc lp : list Z) :
  pool_queue_ok pool ->
  queue_lists (msgqueue pool) (heap s) lc lp ->
  (forall off, In off [OFF_LINK; OFF_ROUTINE; OFF_CONTEXT] -> buf + off ∉ lc ++ lp) ->
  (buf = NULL -> thrdpool_schedule buf task pool s = Done (-1, pool) s []) /\
  (buf <> NULL ->
   exists q' s',
     thrdpool_schedule buf task pool s
       = Done (0, mkPool q' (nthreads pool) (stacksize pool) (tid pool)
                         (terminate pool)) s' put_trace /\
     queue_lists q' (heap s') lc (lp ++ [buf]) /\
     heap s' !! (buf + OFF_ROUTINE) = Some (routine task) /\
     heap s' !! (buf + OFF_CONTEXT) = Some (context task) /\
     msg_max q' = 0 /\ link_off q' = 0 /\ msg_cnt q' = msg_cnt (msgqueue pool)).
Proof.
  intros (Hmax & Hoff & Hcnt) Hq Hsep.
  assert (Hs0 : buf ∉ lc ++ lp).
  { replace buf with (buf + OFF_LINK) by (offsets; lia). apply Hsep. simpl. tauto. }
  assert (Hs1 : buf + OFF_ROUTINE ∉ lc ++ lp) by (apply Hsep; simpl; tauto).
  assert (Hs2 : buf + OFF_CONTEXT ∉ lc ++ lp) by (apply Hsep; simpl; tauto).
  split.
  - intros ->. reflexivity.
  - intros Hnz.
    unfold thrdpool_schedule, is_null.
    destruct (Z.eqb_spec buf NULL) as [|_]; [done|]. simpl.
    unfold __thrdpool_schedule.
    set (h1 := <[buf + OFF_ROUTINE := routine task]> (heap s)).
    set (h2 := <[buf + OFF_CONTEXT := context task]> h1).
    assert (Hbuf : buf + link_off (msgqueue pool) = buf) by (rewrite Hoff; lia).
    assert (Hq2 : queue_lists (msgqueue pool)
                    (heap (set_heap h2 (set_heap h1 s))) lc lp).
    { simpl. by do 2 (apply queue_lists_write_outside; [done|]). }
    destruct (msgqueue_put_appends buf (msgqueue pool)
                (set_heap h2 (set_heap h1 s)) lc lp Hq2)
      as (q' & s' & Eput & Hq' & Hfr & Emax & Eoff & Ecnt & _).
    + by rewrite Hbuf.
    + by rewrite Hbuf.
    + by rewrite (queue_full_unbounded _ Hmax Hcnt).
    + rewrite Hbuf in Hq', Hfr.
      apply not_elem_of_app in Hs1 as [_ Hs1].
      apply not_elem_of_app in Hs2 as [_ Hs2].
      exists q', s'. split; [|split; [done|split; [|split]]].
      * run. fold h1. fold h2. by rewrite Eput.
      * rewrite Hfr; [| offsets; lia | done].
        simpl. subst h2 h1. rewrite lookup_insert_ne, lookup_insert_eq; [done|].
        offsets. lia.
      * rewrite Hfr; [| offsets; lia | done].
        simpl. subst h2. by rewrite lookup_insert_eq.
      * by rewrite Emax, Eoff, Ecnt.
Qed.

Lemma thrdpool_schedule_enqueues_one_witness :
  (4096 = NULL ->
   thrdpool_schedule 4096 demo_task (demo_pool 0) st0
     = Done (-1, demo_pool 0) st0 []) /\
  (4096 <> NULL ->
   exists q' s',
     thrdpool_schedule 4096 demo_task (demo_pool 0) st0
       = Done (0, mkPool q' 0 0 0 None) s' put_trace /\
     queue_lists q' (heap s') [] [4096] /\
     heap s' !! (4096 + OFF_ROUTINE) = Some 1000 /\
     heap s' !! (4096 + OFF_CONTEXT) = Some 2000 /\
     msg_max q' = 0 /\ link_off q' = 0 /\ msg_cnt q' = 0).
Proof.
  apply (thrdpool_schedule_enqueues_one 4096 demo_task (demo_pool 0) st0 [] []).
  - by vm_compute.
  - apply queue_lists_fresh.
  - intros off _. simpl. apply not_elem_of_nil.
Defined.

(** ** thrdpool_create *)

Lemma spawn_loop_frame (fuel : nat) (env : pool_env) (i : nat) (target ret : Z)
    (pool pool' : thrdpool_t) (s s' : state) (r : Z) (t : list event) :
  spawn_loop fuel env i target ret pool s = Done (r, pool') s' t ->
  s' = s /\ msgqueue pool' = msgqueue pool /\ stacksize pool' = stacksize pool /\
  tid pool' = tid pool /\ terminate pool' = terminate pool.
Proof.
  revert i ret pool t. induction fuel as [|fuel IH]; intros i ret pool t; simpl.
  - by intros [= _ <- <- _].
  - destruct (nthreads pool <? target); [|by intros [= _ <- <- _]].
    run. destruct (spawn_ret env i =? 0); [|by intros [= _ <- <- _]].
    destruct (spawn_loop _ _ _ _ _ _ s) as [[r1 p1] s1 t1| |] eqn:E; [|done..].
    intros [= <- <- <- _]. by apply IH in E.
Qed.

(** The loop stops because of its guard or a failed spawn, never because
    the fuel is used up. *)
Lemma spawn_loop_stops (fuel : nat) (env : pool_env) (i : nat) (target ret : Z)
    (pool pool' : thrdpool_t) (s s' : state) (r : Z) (t : list event) :
  (Z.to_nat (target - nthreads pool) < fuel)%nat ->
  0 <= nthreads pool <= target -> target <= SIZE_MAX ->
  spawn_loop fuel env i target ret pool s = Done (r, pool') s' t ->
  nthreads pool' = target \/ (r <> 0 /\ nthreads pool' < target).
Proof.
  revert i ret pool t.
  induction fuel as [|fuel IH]; intros i ret pool t Hf H0 Hmax; [lia|].
  simpl. destruct (Z.ltb_spec (nthreads pool) target) as [Hlt|Hge].
  - run. destruct (Z.eqb_spec (spawn_ret env i) 0) as [E0|E0].
    + destruct (spawn_loop _ _ _ _ _ _ s) as [[r1 p1] s1 t1| |] eqn:E; [|done..].
      intros [= <- <- <- _].
      apply IH in E; [done| |simpl|done];
        simpl; rewrite size_add_small by lia; lia.
    + intros [= <- <- <- _]. right. by split.
  - intros [= _ <- _ _]. left. lia.
Qed.

Lemma msgqueue_create_some (env : create_env) (maxlen linkoff : Z) (s s' : state)
    (q : msgqueue_t) (t : list event) :
  msgqueue_create env maxlen linkoff s = Done (Some q) s' t ->
  q = fresh_queue maxlen linkoff /\ s' = s.
Proof.
  unfold msgqueue_create. destruct (negb (malloc_ok env)); [done|].
  intros H. apply bind_done in H as (ret & s1 & t1 & t2 & Hinit & H & _).
  assert (s1 = s) as ->.
  { clear H. run. repeat (case_match; simpl in * ); by simplify_eq. }
  destruct (ret =? 0).
  - by injection H as <- <- _.
  - apply bind_done in H as (_ & ? & _ & ? & _ & H & _).
    apply bind_done in H as (_ & ? & _ & ? & _ & H & _). done.
Qed.

Lemma thrdpool_create_threads_ok (env : pool_env) (self n : Z)
    (pool pool' : thrdpool_t) (s s' : state) (rc : Z) (t : list event) :
  __thrdpool_create_threads env self n pool s = Done (rc, pool') s' t ->
  0 <= rc ->
  s' = s /\ nthreads pool' = n /\ msgqueue pool' = msgqueue pool /\
  stacksize pool' = stacksize pool /\ tid pool' = tid pool /\
  terminate pool' = terminate pool.
Proof.
  unfold __thrdpool_create_threads. intros H Hrc.
  emit_inv H.
  destruct (attr_init env =? 0).
  - bind_inv H as ? Hw. apply when_done in Hw as ->.
    bind_inv H as [r p] Hloop.
    apply spawn_loop_frame in Hloop as (-> & Hq & Hst & Htid & Hterm).
    emit_inv H.
    destruct (Z.eqb_spec (nthreads p) n) as [E|E].
    + injection H as <- <- <- _. by rewrite Hq, Hst, Htid, Hterm.
    + bind_inv H as ? Ht. bind_inv H as ? Hw. injection H as <- _. lia.
  - bind_inv H as ? Hw. injection H as <- _. lia.
Qed.

Lemma thrdpool_create_pool (env : pool_env) (self n stack : Z) (s s' : state)
    (pool : thrdpool_t) (t : list event) :
  thrdpool_create env self n stack s = Done (Some pool) s' t ->
  pool = mkPool (fresh_queue 0 0) n stack 0 None /\ s' = s.
Proof.
  unfold thrdpool_create. destruct (negb (pool_malloc_ok env)); [done|].
  intros H. bind_inv H as [q|] Hq.
  2: { emit_inv H. done. }
  apply msgqueue_create_some in Hq as [-> ->].
  emit_inv H. bind_inv H as [[ok ret] p] Hin.
  destruct ok.
  2: { bind_inv H as ? Hw. bind_inv H as ? Hd. emit_inv H. done. }
  injection H as <- <- _.
  destruct (pool_mutex_init env =? 0); [|done].
  emit_inv Hin. bind_inv Hin as [ok p2] Hkey.
  destruct ok.
  2: { emit_inv Hin. done. }
  injection Hin as <- <- <-.
  destruct (key_create env =? 0); [|done].
  bind_inv Hkey as [rc p3] Hth.
  destruct (Z.geb_spec rc 0) as [Hrc|Hrc].
  2: { emit_inv Hkey. done. }
  injection Hkey as <- <-.
  apply thrdpool_create_threads_ok in Hth as (-> & Hn & Hq & Hst & Htid & Hterm);
    [|lia].
  split; [|done]. destruct p3. simpl in *. by subst.
Qed.

(** A pool that [thrdpool_create] returns has all its [n] workers, no
    last-exiter, no terminator, and the queue of [msgqueue_create(0, 0)]. *)
Lemma thrdpool_create_pool_queue_ok (env : pool_env) (self n stack : Z)
    (s s' : state) (pool : thrdpool_t) (t : list event) :
  thrdpool_create env self n stack s = Done (Some pool) s' t ->
  pool_queue_ok pool /\ forall h, queue_lists (msgqueue pool) h [] [].
Proof.
  intros H. apply thrdpool_create_pool in H as [-> _]. split.
  - by vm_compute.
  - intros h. apply queue_lists_fresh.
Qed.

(** [thrdpool_create(0, 0)] with every environment call succeeding. *)
Lemma thrdpool_create_no_workers :
  thrdpool_create ok_pool_env 99 0 0 st0
  = Done (Some (demo_pool 0)) st0
      [EvMutexInit get_mutex 0; EvMutexInit put_mutex 0;
       EvCondInit get_cond 0; EvCondInit put_cond 0;
       EvMutexInit pool_mutex 0; EvKeyCreate 0; EvAttrInit 0; EvAttrDestroy].
Proof. reflexivity. Qed.

(** [thrdpool_create(2, 0)]: two spawns, two workers. *)
Lemma thrdpool_create_two_workers :
  exists t,
    thrdpool_create ok_pool_env 99 2 0 st0
    = Done (Some (mkPool (fresh_queue 0 0) 2 0 0 None)) st0 t /\
    t = [EvMutexInit get_mutex 0; EvMutexInit put_mutex 0;
         EvCondInit get_cond 0; EvCondInit put_cond 0;
         EvMutexInit pool_mutex 0; EvKeyCreate 0; EvAttrInit 0;
         EvCreate 0; EvCreate 0; EvAttrDestroy].
Proof. eexists. split; reflexivity. Qed.

(** * Further properties *)

(** ** msgqueue_create *)

(** X1: [msgqueue_create] returns a queue exactly when [malloc] and the four
    inits succeed: an empty blocking queue with the given bound and link
    offset, [errno] untouched.  When [malloc] fails nothing else happens.
    When an init fails the call sets [errno] to that init's result and
    frees the queue struct, and it destroys none of the mutexes and
    condition variables it had initialised before. *)
Theorem msgqueue_create_outcomes (env : create_env) (maxlen linkoff : Z) (s : state) :
  exists t,
    msgqueue_create env maxlen linkoff s =
      (if negb (malloc_ok env) then Done None s []
       else if first_failure env =? 0
            then Done (Some (fresh_queue maxlen linkoff)) s t
            else Done None (set_errno (first_failure env) s) t) /\
    (malloc_ok env = true -> first_failure env <> 0 -> last t = Some (EvFree BQueue)) /\
    forallb (fun e => negb (is_destroy e)) t = true.
Proof.
  unfold msgqueue_create, first_failure. run.
  destruct (malloc_ok env); simpl.
  2: { exists []. by repeat split. }
  destruct (Z.eqb_spec (get_mutex_init env) 0) as [E1|E1]; simpl.
  2: { destruct (Z.eqb_spec (get_mutex_init env) 0) as [|_]; [done|].
       eexists. split; [reflexivity|]. by split. }
  destruct (Z.eqb_spec (put_mutex_init env) 0) as [E2|E2]; simpl.
  2: { destruct (Z.eqb_spec (put_mutex_init env) 0) as [|_]; [done|].
       eexists. split; [reflexivity|]. by split. }
  destruct (Z.eqb_spec (get_cond_init env) 0) as [E3|E3]; simpl.
  2: { destruct (Z.eqb_spec (get_cond_init env) 0) as [|_]; [done|].
       eexists. split; [reflexivity|]. by split. }
  destruct (Z.eqb_spec (put_cond_init env) 0) as [E4|E4]; simpl.
  - eexists. split; [reflexivity|]. by split.
  - eexists. split; [reflexivity|]. by split.
Qed.

(** ** msgqueue_get in closed form *)

Lemma pop_head_run (q : msgqueue_t) (s : state) :
  pop_head q s =
  match slot_value q (heap s) (get_head q) with
  | Some p =>
      match heap s !! p with
      | Some next =>
          Done (p - link_off q, store_queue q (get_head q) next)
               (set_heap (store_heap (heap s) (get_head q) next) s) []
      | None => Fault
      end
  | None => Fault
  end.
Proof.
  unfold pop_head, mbind, M_bind, read_cell.
  rewrite load_slot_value.
  destruct (slot_value q (heap s) (get_head q)) as [p|]; [|done].
  destruct (heap s !! p) as [next|]; [|done].
  by rewrite store_run.
Qed.

Lemma msgqueue_get_run (q : msgqueue_t) (s : state) :
  msgqueue_get q s =
  match slot_value q (heap s) (get_head q) with
  | None => Fault
  | Some p =>
      if negb (is_null p) then under_get_mutex [EvLock get_mutex] (pop_head q s)
      else if (msg_cnt q =? 0) && negb (nonblock q)
      then Waits get_cond [EvLock get_mutex; EvLock put_mutex]
      else if msg_cnt q >? 0
      then under_get_mutex (EvLock get_mutex :: swap_trace q) (pop_head (swapped q) s)
      else Done (NULL, swapped q) s
                (EvLock get_mutex :: swap_trace q ++ [EvUnlock get_mutex])
  end.
Proof.
  unfold msgqueue_get, mbind, M_bind at 1 2 3. simpl.
  rewrite load_slot_value.
  destruct (slot_value q (heap s) (get_head q)) as [p|]; [|done]. simpl.
  destruct (negb (is_null p)).
  - destruct (pop_head q s) as [[m q'] s' t| |]; simpl;
      by rewrite ?app_nil_r.
  - unfold mbind, M_bind. rewrite msgqueue_swap_run.
    destruct ((msg_cnt q =? 0) && negb (nonblock q)); [done|].
    destruct (msg_cnt q >? 0).
    + destruct (pop_head (swapped q) s) as [[m q'] s' t| |]; simpl;
        by rewrite ?app_nil_r, <- ?app_assoc.
    + unfold mret, M_ret. simpl. by rewrite ?app_nil_r.
Qed.

(** ** What every reachable queue satisfies *)

Lemma queue_shape_get (q q' : msgqueue_t) (m : Z) (s s' : state) (t : list event) :
  queue_shape q -> msgqueue_get q s = Done (m, q') s' t ->
  queue_shape q' /\ msg_max q' = msg_max q /\ link_off q' = link_off q /\
  nonblock q' = nonblock q.
Proof.
  intros (Hc & Hg & Hp & Hne). rewrite msgqueue_get_run.
  destruct (slot_value q (heap s) (get_head q)) as [p|]; [|done].
  destruct (negb (is_null p)).
  - rewrite pop_head_run.
    destruct (slot_value q (heap s) (get_head q)) as [p'|]; [|done].
    destruct (heap s !! p') as [next|]; [|done]. simpl.
    intros [= _ <- _ _]. unfold queue_shape.
    destruct (store_queue_fields q (get_head q) next)
      as (-> & -> & _ & -> & -> & -> & ->). by repeat split.
  - rewrite Hc. simpl. destruct (nonblock q) eqn:Hn; [|done]. simpl.
    intros [= _ <- _ _]. by repeat split.
Qed.

Lemma queue_shape_put (q q' : msgqueue_t) (msg : Z) (s s' : state) (t : list event) :
  queue_shape q -> msgqueue_put msg q s = Done q' s' t ->
  queue_shape q' /\ msg_max q' = msg_max q /\ link_off q' = link_off q /\
  nonblock q' = nonblock q.
Proof.
  intros (Hc & Hg & Hp & Hne). rewrite msgqueue_put_run.
  destruct (queue_full q && negb (nonblock q)); [done|].
  intros [= <- _ _]. unfold queue_shape. simpl.
  destruct (store_queue_fields q (put_tail q) (msg + link_off q))
    as (-> & -> & _ & -> & -> & -> & ->). by repeat split.
Qed.

Lemma reachable_shape (q : msgqueue_t) : reachable q -> queue_shape q.
Proof.
  induction 1 as [maxlen linkoff|q q' msg s s' t _ IH Hput
                 |q q' m s s' t _ IH Hget|q b _ IH].
  - repeat split; simpl; try done; [by left|by right].
  - by apply (queue_shape_put _ _ _ _ _ _ IH Hput).
  - by apply (queue_shape_get _ _ _ _ _ _ IH Hget).
  - exact IH.
Qed.

(** X2: On every reachable queue [msg_cnt] is 0, so the bound given to
    [msgqueue_create] is never enforced: whatever [maxlen] was and however
    many messages are queued, a put returns without waiting on
    [put_cond], in blocking mode too. *)
Theorem msgqueue_put_never_waits_reachable (q : msgqueue_t) (msg : Z) (s : state) :
  reachable q ->
  msg_cnt q = 0 /\
  exists q' s', msgqueue_put msg q s = Done q' s' put_trace /\ reachable q'.
Proof.
  intros Hr. destruct (reachable_shape q Hr) as (Hc & _).
  split; [done|].
  pose proof (msgqueue_put_run msg q s) as E.
  rewrite (queue_full_at_zero q Hc) in E. simpl in E.
  do 2 eexists. split; [exact E|]. by eapply reach_put.
Qed.

Lemma msgqueue_put_never_waits_reachable_witness :
  msg_cnt (fresh_queue 1 0) = 0 /\
  exists q' s',
    msgqueue_put 8192 (fresh_queue 1 0) st0 = Done q' s' put_trace /\ reachable q'.
Proof.
  exact (msgqueue_put_never_waits_reachable (fresh_queue 1 0) 8192 st0
           (reach_create 1 0)).
Defined.

(** ** Runs of puts and gets on the lists *)

Lemma msgqueue_puts_append (msgs : list Z) (q : msgqueue_t) (s : state)
    (lc lp : list Z) :
  queue_lists q (heap s) lc lp ->
  msg_cnt q = 0 ->
  NoDup ((fun m => m + link_off q) <$> msgs) ->
  (forall m, m ∈ msgs -> m + link_off q <> NULL /\ m + link_off q ∉ lc ++ lp) ->
  exists q' s' t,
    msgqueue_puts msgs q s = Done q' s' t /\
    queue_lists q' (heap s') lc (lp ++ ((fun m => m + link_off q) <$> msgs)) /\
    msg_cnt q' = 0 /\ nonblock q' = nonblock q /\ link_off q' = link_off q.
Proof.
  revert q s lp. induction msgs as [|m ms IH]; intros q s lp Hq Hc Hnd Hnew.
  - exists q, s, []. simpl. by rewrite app_nil_r.
  - simpl in Hnd. apply NoDup_cons in Hnd as [Hm Hnd].
    destruct (Hnew m) as [Hnz Hout]; [apply list_elem_of_here|].
    destruct (msgqueue_put_appends m q s lc lp Hq Hnz Hout)
      as (q1 & s1 & E1 & Hq1 & _ & _ & Eoff & Ecnt & Enb & _).
    { by rewrite (queue_full_at_zero q Hc). }
    destruct (IH q1 s1 (lp ++ [m + link_off q])) as (q2 & s2 & t2 & E2 & Hq2 & Hc2 & Enb2 & Eoff2).
    + done.
    + by rewrite Ecnt.
    + by rewrite Eoff.
    + intros m' Hm'. rewrite Eoff.
      destruct (Hnew m') as [Hnz' Hout']; [by apply list_elem_of_further|].
      split; [done|]. rewrite app_assoc. apply not_elem_of_app. split; [done|].
      intros Hin. apply list_elem_of_singleton in Hin.
      apply Hm. rewrite <- Hin. by apply (list_elem_of_fmap_2 (fun m => m + link_off q)).
    + exists q2, s2, (put_trace ++ t2). split; [|split; [|split; [done|split]]].
      * simpl. unfold mbind, M_bind. by rewrite E1, E2.
      * rewrite Eoff in Hq2. simpl. by rewrite <- app_assoc in Hq2.
      * by rewrite Enb2.
      * by rewrite Eoff2.
Qed.

(** Gets on a consumer-side list that holds at least that many entries
    return their messages in list order and never touch [put_mutex]. *)
Lemma msgqueue_gets_pops (l1 l2 lp : list Z) (q : msgqueue_t) (s : state) :
  queue_lists q (heap s) (l1 ++ l2) lp ->
  exists q' t,
    msgqueue_gets (length l1) q s
      = Done ((fun a => a - link_off q) <$> l1, q') s t /\
    queue_lists q' (heap s) l2 lp /\
    forallb (fun e => negb (touches_put_mutex e)) t = true /\
    msg_cnt q' = msg_cnt q /\ nonblock q' = nonblock q /\
    link_off q' = link_off q /\ msg_max q' = msg_max q.
Proof.
  revert q. induction l1 as [|a l1 IH]; intros q Hq.
  - exists q, []. split; [reflexivity|]. split; [exact Hq|]. by repeat split.
  - destruct (msgqueue_get_pops_head q s a (l1 ++ l2) lp Hq)
      as (q1 & E1 & Hq1 & Ecnt & Enb & Eoff & Emax).
    destruct (IH q1 Hq1) as (q2 & t2 & E2 & Hq2 & Ht2 & Ecnt2 & Enb2 & Eoff2 & Emax2).
    exists q2, ([EvLock get_mutex; EvUnlock get_mutex] ++ t2 ++ []).
    split; [|split; [done|split]].
    + simpl. unfold mbind, M_bind. rewrite E1, E2. by rewrite Eoff.
    + simpl. by rewrite app_nil_r.
    + by rewrite Ecnt2, Enb2, Eoff2, Emax2.
Qed.

Lemma msgqueue_gets_app (n m : nat) (q q1 q2 : msgqueue_t) (s s1 s2 : state)
    (l1 l2 : list Z) (t1 t2 : list event) :
  msgqueue_gets n q s = Done (l1, q1) s1 t1 ->
  msgqueue_gets m q1 s1 = Done (l2, q2) s2 t2 ->
  exists t, msgqueue_gets (n + m) q s = Done (l1 ++ l2, q2) s2 t.
Proof.
  revert q s l1 t1. induction n as [|n IH]; intros q s l1 t1 H1 H2.
  - injection H1 as <- <- <- _. simpl. eauto.
  - simpl in H1. bind_inv H1 as [a qa] Hget. bind_inv H1 as [l qb] Hrest.
    injection H1 as <- <- <-.
    destruct (IH _ _ _ _ Hrest H2) as [t E].
    eexists. simpl. unfold mbind, M_bind. rewrite Hget, E. reflexivity.
Qed.

Lemma queue_lists_demo : queue_lists demo_queue demo_heap [4096; 8192] [].
Proof.
  unfold queue_lists. simpl. split_and!; try done.
  - by left.
  - by right.
  - by exists (Link 8192).
  - apply NoDup_cons. split; [|apply NoDup_singleton].
    intros H. by apply list_elem_of_singleton in H.
Qed.

(** X3: Consumer-side FIFO: when the consumer-side list starts with the
    entries of messages [msgs], that many gets return exactly [msgs], in
    order, in either mode; they leave the rest of the list and the whole
    producer side in place and never take [put_mutex]. *)
Theorem msgqueue_gets_fifo (msgs rest lp : list Z) (q : msgqueue_t) (s : state) :
  queue_lists q (heap s) (((fun m => m + link_off q) <$> msgs) ++ rest) lp ->
  exists q' t,
    msgqueue_gets (length msgs) q s = Done (msgs, q') s t /\
    queue_lists q' (heap s) rest lp /\
    forallb (fun e => negb (touches_put_mutex e)) t = true.
Proof.
  intros Hq.
  destruct (msgqueue_gets_pops _ _ _ _ _ Hq) as (q' & t & E & Hq' & Ht & _).
  exists q', t. split; [|done].
  rewrite length_fmap in E. rewrite E. f_equal. f_equal.
  rewrite <- list_fmap_compose. rewrite <- (list_fmap_id msgs) at 2.
  apply list_fmap_ext. intros i m _. simpl. lia.
Qed.

Lemma msgqueue_gets_fifo_witness :
  exists q' t,
    msgqueue_gets 2 demo_queue demo_state = Done ([4096; 8192], q') demo_state t /\
    queue_lists q' demo_heap [] [] /\
    forallb (fun e => negb (touches_put_mutex e)) t = true.
Proof.
  exact (msgqueue_gets_fifo [4096; 8192] [] [] demo_queue demo_state queue_lists_demo).
Defined.

Lemma queue_lists_empty_consumer (q : msgqueue_t) (h : gmap Z Z) (lp : list Z) :
  queue_lists q h [] lp -> slot_value q h (get_head q) = Some NULL.
Proof. by intros (_ & _ & _ & [last [H _]] & _). Qed.

(** X4: Draining in nonblock mode: after distinct messages [msgs] are put on a
    fresh queue in nonblock mode, the first get returns the null sentinel
    (it only moves the list to the consumer side, as [msg_cnt] is 0), the
    next gets return [msgs] in the order they were put, and the get after
    the last message returns null again. *)
Theorem msgqueue_nonblock_drain_order (maxlen linkoff : Z) (msgs : list Z)
    (s : state) :
  NoDup msgs -> (forall m, m ∈ msgs -> m + linkoff <> NULL) ->
  exists q1 s1 t1 q2 t2,
    msgqueue_puts msgs (with_nonblock true (fresh_queue maxlen linkoff)) s
      = Done q1 s1 t1 /\
    msgqueue_gets (1 + (length msgs + 1)) q1 s1
      = Done ([NULL] ++ msgs ++ [NULL], q2) s1 t2.
Proof.
  intros Hnd Hnz.
  set (q0 := with_nonblock true (fresh_queue maxlen linkoff)).
  destruct (msgqueue_puts_append msgs q0 s [] [])
    as (q1 & s1 & t1 & E1 & Hq1 & Hc1 & Hnb1 & Hoff1); try done.
  { exact (queue_lists_fresh maxlen linkoff (heap s)). }
  { apply NoDup_fmap_2; [|done]. intros a b. simpl. lia. }
  { intros m Hm. split; [by apply Hnz|]. apply not_elem_of_nil. }
  simpl in Hq1, Hnb1, Hoff1.
  exists q1, s1, t1. 
  (* the first get: a null, and the swap *)
  pose proof (msgqueue_get_uncounted q1 s1
                (queue_lists_empty_consumer _ _ _ Hq1) Hc1) as Eg1.
  rewrite Hnb1 in Eg1.
  destruct (msgqueue_swap_moves_list q1 s1 _ Hq1) as [_ Hq2].
  { by rewrite Hnb1, andb_false_r. }
  assert (G1 : msgqueue_gets 1 q1 s1
               = Done ([NULL], swapped q1) s1
                   ([EvLock get_mutex; EvLock put_mutex; EvUnlock put_mutex;
                     EvUnlock get_mutex] ++ [] ++ [])).
  { simpl. unfold mbind, M_bind. by rewrite Eg1. }
  (* the messages, in order *)
  rewrite <- (app_nil_r (_ <$> msgs)) in Hq2.
  destruct (msgqueue_gets_pops _ _ _ _ _ Hq2)
    as (q3 & t3 & E3 & Hq3 & _ & Hc3 & Hnb3 & Hoff3 & _).
  rewrite length_fmap in E3. simpl in E3, Hc3, Hnb3, Hoff3.
  assert (Emsgs : (fun a => a - link_off q1) <$> ((fun m => m + linkoff) <$> msgs) = msgs).
  { rewrite <- list_fmap_compose. rewrite <- (list_fmap_id msgs) at 2.
    apply list_fmap_ext. intros i m _. simpl. rewrite Hoff1. lia. }
  rewrite Emsgs in E3.
  (* the last get: a null again *)
  pose proof (msgqueue_get_uncounted q3 s1
                (queue_lists_empty_consumer _ _ _ Hq3) Hc3) as Eg3.
  rewrite Hnb3, Hnb1 in Eg3.
  assert (G3 : msgqueue_gets 1 q3 s1
               = Done ([NULL], swapped q3) s1
                   ([EvLock get_mutex; EvLock put_mutex; EvUnlock put_mutex;
                     EvUnlock get_mutex] ++ [] ++ [])).
  { simpl. unfold mbind, M_bind. by rewrite Eg3. }
  destruct (msgqueue_gets_app _ _ _ _ _ _ _ _ _ _ _ _ E3 G3) as [t4 E4].
  destruct (msgqueue_gets_app _ _ _ _ _ _ _ _ _ _ _ _ G1 E4) as [t5 E5].
  by exists (swapped q3), t5.
Qed.

Lemma msgqueue_nonblock_drain_order_witness :
  exists q1 s1 t1 q2 t2,
    msgqueue_puts [4096; 8192] (with_nonblock true (fresh_queue 16 0)) st0
      = Done q1 s1 t1 /\
    msgqueue_gets 4 q1 s1 = Done ([NULL; 4096; 8192; NULL], q2) s1 t2.
Proof.
  apply (msgqueue_nonblock_drain_order 16 0 [4096; 8192] st0).
  - apply NoDup_cons. split; [|apply NoDup_singleton].
    intros H. by apply list_elem_of_singleton in H.
  - intros m Hm. apply elem_of_cons in Hm as [->|Hm]; [done|].
    by apply list_elem_of_singleton in Hm as ->.
Defined.

(** ** The counting path of msgqueue_get *)

Lemma under_get_mutex_done {A : Type} (pre : list event) (o : outcome A) (a : A)
    (s : state) (t : list event) :
  under_get_mutex pre o = Done a s t ->
  exists t', o = Done a s t' /\ t = pre ++ t' ++ [EvUnlock get_mutex].
Proof. destruct o; [|done..]. intros [= <- <- <-]. eauto. Qed.

(** X5: For a queue state whose consumer-side list is empty and whose
    [msg_cnt] is positive with entries [a :: lp] on the producer side, 
    [msgqueue_get] swaps and pops: it returns the message of [a], leaves
    [lp] on the consumer side and an empty producer side with [msg_cnt]
    0, and broadcasts [put_cond] exactly when the count it found exceeded
    [msg_max - 1]. *)
Theorem msgqueue_get_swaps_and_pops (q : msgqueue_t) (s : state) (a : Z)
    (lp : list Z) :
  queue_lists q (heap s) [] (a :: lp) -> 0 < msg_cnt q ->
  exists q' t,
    msgqueue_get q s = Done (a - link_off q, q') s t /\
    queue_lists q' (heap s) lp [] /\
    msg_cnt q' = 0 /\
    (In (EvBroadcast put_cond) t <-> queue_full q = true).
Proof.
  intros Hq Hpos.
  assert (Hguard : (msg_cnt q =? 0) && negb (nonblock q) = false).
  { destruct (Z.eqb_spec (msg_cnt q) 0); [lia|done]. }
  destruct (msgqueue_swap_moves_list q s _ Hq Hguard) as [_ Hq1].
  destruct (msgqueue_get_pops_head (swapped q) s a lp [] Hq1)
    as (q' & Eget & Hq' & Ecnt & _).
  rewrite msgqueue_get_run in Eget.
  destruct Hq1 as (_ & _ & _ & [last (Ha & Hslot & _)] & _).
  rewrite Hslot in Eget. unfold is_null in Eget.
  destruct (Z.eqb_spec a NULL) as [|_]; [done|]. simpl in Eget.
  apply under_get_mutex_done in Eget as (t' & Epop & Et).
  assert (t' = []) as -> by (by destruct t' as [|e [|e' t']]).
  exists q'. eexists. split; [|split; [done|split]].
  - rewrite msgqueue_get_run, (queue_lists_empty_consumer _ _ _ Hq). simpl.
    rewrite Hguard. destruct (Z.gtb_spec (msg_cnt q) 0) as [_|]; [|lia].
    rewrite Epop. simpl. reflexivity.
  - by rewrite Ecnt.
  - unfold swap_trace. destruct (queue_full q); simpl; split; try done.
    + tauto.
    + intuition discriminate.
Qed.

Lemma msgqueue_get_swaps_and_pops_witness :
  exists q' t,
    msgqueue_get counted_queue counted_state = Done (4096, q') counted_state t /\
    queue_lists q' (heap counted_state) [] [] /\
    msg_cnt q' = 0 /\
    (In (EvBroadcast put_cond) t <-> queue_full counted_queue = true).
Proof.
  apply (msgqueue_get_swaps_and_pops counted_queue counted_state 4096 []).
  - unfold queue_lists. simpl. split_and!; try done.
    + by left.
    + by right.
    + by exists Head1.
    + apply NoDup_singleton.
  - by vm_compute.
Defined.

(** ** thrdpool_create *)

Lemma spawn_loop_all_ok (env : pool_env) (n : Z) (s : state) :
  (forall i, spawn_ret env i = 0) -> n <= SIZE_MAX ->
  forall (k fuel i : nat) (ret : Z) (pool : thrdpool_t),
    (k < fuel)%nat -> 0 <= nthreads pool -> nthreads pool + Z.of_nat k = n ->
    exists r,
      spawn_loop fuel env i n ret pool s
      = Done (r, mkPool (msgqueue pool) n (stacksize pool) (tid pool)
                        (terminate pool)) s (repeat (EvCreate 0) k).
Proof.
  intros Hok Hmax k. induction k as [|k IH]; intros fuel i ret pool Hf H0 Hn.
  - destruct fuel as [|fuel]; [lia|]. simpl.
    destruct (Z.ltb_spec (nthreads pool) n) as [|_]; [lia|].
    exists ret. destruct pool as [pq pn ps pt pc]. simpl in *.
    replace n with pn by lia. reflexivity.
  - destruct fuel as [|fuel]; [lia|]. simpl.
    destruct (Z.ltb_spec (nthreads pool) n) as [_|]; [|lia].
    run. rewrite Hok. simpl.
    destruct (IH fuel (S i) 0 (with_nthreads (size_add (nthreads pool) 1) pool))
      as [r E].
    + lia.
    + simpl. rewrite size_add_small by lia. lia.
    + simpl. rewrite size_add_small by lia. lia.
    + exists r. rewrite E. reflexivity.
Qed.

Lemma msgqueue_create_ok (env : create_env) (maxlen linkoff : Z) (s : state) :
  malloc_ok env = true -> get_mutex_init env = 0 -> put_mutex_init env = 0 ->
  get_cond_init env = 0 -> put_cond_init env = 0 ->
  msgqueue_create env maxlen linkoff s
  = Done (Some (fresh_queue maxlen linkoff)) s queue_init_trace.
Proof.
  intros Hm H1 H2 H3 H4. unfold msgqueue_create. run.
  by rewrite Hm, H1, H2, H3, H4.
Qed.

Lemma thrdpool_create_threads_all_ok (env : pool_env) (self n : Z)
    (pool : thrdpool_t) (s : state) :
  attr_init env = 0 -> (forall i, spawn_ret env i = 0) ->
  0 <= n <= SIZE_MAX -> nthreads pool = 0 ->
  __thrdpool_create_threads env self n pool s
  = Done (0, mkPool (msgqueue pool) n (stacksize pool) (tid pool) (terminate pool)) s
      (EvAttrInit 0 :: stack_trace (stacksize pool) ++
       repeat (EvCreate 0) (Z.to_nat n) ++ [EvAttrDestroy]).
Proof.
  intros Ha Hs Hn H0. unfold __thrdpool_create_threads, stack_trace.
  destruct (spawn_loop_all_ok env n s Hs (proj2 Hn) (Z.to_nat n)
              (S (Z.to_nat (n - nthreads pool))) 0%nat (attr_init env) pool)
    as [r E]; [lia..|].
  set (L := spawn_loop _ _ _ _ _ _) in *. clearbody L.
  run. rewrite Ha. simpl.
  destruct (stacksize pool =? 0); simpl; rewrite E; simpl;
    by rewrite Z.eqb_refl, ?app_nil_r.
Qed.

(** X6: When every environment call succeeds, [thrdpool_create(n, stack)]
    returns a pool: it has made its queue with [msgqueue_create(0, 0)],
    called [pthread_create] exactly [n] times, and the pool records [n]
    workers, the stack size, no last-exiter and no terminator; [errno] is
    untouched and nothing is destroyed, joined or freed. *)
Theorem thrdpool_create_spawns_all (env : pool_env) (self n stack : Z) (s : state) :
  env_all_ok env -> 0 <= n <= SIZE_MAX ->
  thrdpool_create env self n stack s
  = Done (Some (mkPool (fresh_queue 0 0) n stack 0 None)) s
      (queue_init_trace ++
       [EvMutexInit pool_mutex 0; EvKeyCreate 0; EvAttrInit 0] ++
       stack_trace stack ++ repeat (EvCreate 0) (Z.to_nat n) ++ [EvAttrDestroy]).
Proof.
  intros (Hpm & Hqm & H1 & H2 & H3 & H4 & Hmi & Hkc & Hai & Hsp) Hn.
  unfold thrdpool_create. rewrite Hpm. simpl.
  unfold mbind, M_bind at 1.
  rewrite (msgqueue_create_ok _ 0 0 s Hqm H1 H2 H3 H4).
  pose proof (thrdpool_create_threads_all_ok env self n
                (mkPool (fresh_queue 0 0) 0 stack 0 None) s Hai Hsp Hn eq_refl) as E.
  set (C := __thrdpool_create_threads _ _ _ _) in *. clearbody C.
  run. rewrite Hmi, Hkc. simpl. rewrite E. simpl. by rewrite ?app_nil_r.
Qed.

Lemma thrdpool_create_spawns_all_witness :
  thrdpool_create ok_pool_env 99 3 65536 st0
  = Done (Some (mkPool (fresh_queue 0 0) 3 65536 0 None)) st0
      (queue_init_trace ++
       [EvMutexInit pool_mutex 0; EvKeyCreate 0; EvAttrInit 0] ++
       stack_trace 65536 ++ repeat (EvCreate 0) (Z.to_nat 3) ++ [EvAttrDestroy]).
Proof.
  apply (thrdpool_create_spawns_all ok_pool_env 99 3 65536 st0).
  - by repeat split.
  - by vm_compute.
Defined.

(** X7: Whenever [thrdpool_create(n, stack)] returns a pool, that pool has
    exactly [n] workers, the stack size asked for, no last-exiter, no
    terminator and the empty, blocking, unbounded queue of
    [msgqueue_create(0, 0)], and [errno] is as it was. *)
Theorem thrdpool_create_returns_full_pool (env : pool_env) (self n stack : Z)
    (s s' : state) (pool : thrdpool_t) (t : list event) :
  thrdpool_create env self n stack s = Done (Some pool) s' t ->
  nthreads pool = n /\ stacksize pool = stack /\ tid pool = 0 /\
  terminate pool = None /\ msgqueue pool = fresh_queue 0 0 /\
  pool_queue_ok pool /\ s' = s.
Proof.
  intros H. apply thrdpool_create_pool in H as [-> ->].
  repeat split. by vm_compute.
Qed.

Lemma thrdpool_create_returns_full_pool_witness :
  nthreads (demo_pool 0) = 0 /\ stacksize (demo_pool 0) = 0 /\
  tid (demo_pool 0) = 0 /\ terminate (demo_pool 0) = None /\
  msgqueue (demo_pool 0) = fresh_queue 0 0 /\
  pool_queue_ok (demo_pool 0) /\ st0 = st0.
Proof.
  exact (thrdpool_create_returns_full_pool ok_pool_env 99 0 0 st0 st0
           (demo_pool 0) _ thrdpool_create_no_workers).
Defined.

(** X8: When the pool's mutex or its thread-local key cannot be created,
    [thrdpool_create] spawns no thread and returns null with [errno] set
    to the failing call's result, having destroyed what it had built: the
    mutex (when it is the key that failed), the queue and the pool. *)
Theorem thrdpool_create_setup_failure (env : pool_env) (self n stack : Z) (s : state) :
  env_queue_ok env ->
  pool_mutex_init env <> 0 \/ key_create env <> 0 ->
  thrdpool_create env self n stack s
  = if pool_mutex_init env =? 0
    then Done None (set_errno (key_create env) s)
           (queue_init_trace ++
            [EvMutexInit pool_mutex 0; EvKeyCreate (key_create env);
             EvMutexDestroy pool_mutex] ++ destory_trace ++ [EvFree BPool])
    else Done None (set_errno (pool_mutex_init env) s)
           (queue_init_trace ++
            [EvMutexInit pool_mutex (pool_mutex_init env)] ++
            destory_trace ++ [EvFree BPool]).
Proof.
  intros (Hpm & Hqm & H1 & H2 & H3 & H4) Hfail.
  unfold thrdpool_create. rewrite Hpm. simpl.
  unfold mbind, M_bind at 1.
  rewrite (msgqueue_create_ok _ 0 0 s Hqm H1 H2 H3 H4).
  set (C := __thrdpool_create_threads _ _ _ _) in *. clearbody C.
  run.
  destruct (Z.eqb_spec (pool_mutex_init env) 0) as [E|E]; simpl; [|done].
  rewrite E.
  destruct (Z.eqb_spec (key_create env) 0) as [E'|E']; simpl; [|done].
  destruct Hfail; congruence.
Qed.

Lemma thrdpool_create_setup_failure_witness :
  thrdpool_create (mkPoolEnv true ok_env 0 12 0 (fun _ => 0)) 99 4 0 st0
  = Done None (set_errno 12 st0)
      (queue_init_trace ++
       [EvMutexInit pool_mutex 0; EvKeyCreate 12; EvMutexDestroy pool_mutex] ++
       destory_trace ++ [EvFree BPool]).
Proof.
  apply (thrdpool_create_setup_failure
           (mkPoolEnv true ok_env 0 12 0 (fun _ => 0)) 99 4 0 st0).
  - by repeat split.
  - by right.
Defined.

#[local] Arguments __thrdpool_terminate : simpl never.

Lemma spawn_loop_first_fails (fuel : nat) (env : pool_env) (i : nat) (n ret : Z)
    (pool : thrdpool_t) (s : state) :
  nthreads pool < n -> spawn_ret env i <> 0 ->
  spawn_loop (S fuel) env i n ret pool s
  = Done (spawn_ret env i, pool) s [EvCreate (spawn_ret env i)].
Proof.
  intros Hlt Hne. simpl.
  destruct (Z.ltb_spec (nthreads pool) n) as [_|]; [|lia].
  run. by destruct (Z.eqb_spec (spawn_ret env i) 0).
Qed.

Lemma thrdpool_create_threads_first_fails (env : pool_env) (self n : Z)
    (pool : thrdpool_t) (s : state) :
  attr_init env = 0 -> nthreads pool = 0 -> 0 < n -> spawn_ret env 0 <> 0 ->
  exists pool',
    __thrdpool_create_threads env self n pool s
    = Done (-1, pool') (set_errno (spawn_ret env 0) s)
        (EvAttrInit 0 :: stack_trace (stacksize pool) ++
         [EvCreate (spawn_ret env 0); EvAttrDestroy] ++ terminate_trace).
Proof.
  intros Ha H0 Hn Hsp.
  destruct (thrdpool_terminate_joins_zero self pool s H0) as (pool' & Et & _).
  exists pool'. unfold __thrdpool_create_threads, stack_trace.
  pose proof (spawn_loop_first_fails (Z.to_nat (n - nthreads pool)) env 0 n
                (attr_init env) pool s ltac:(lia) Hsp) as El.
  set (L := spawn_loop _ _ _ _ _ _) in *. clearbody L.
  run. rewrite Ha. simpl.
  destruct (stacksize pool =? 0); simpl; rewrite El; simpl;
    (destruct (Z.eqb_spec (nthreads pool) n) as [|_]; [lia|]);
    rewrite Et; simpl; by rewrite ?app_nil_r.
Qed.

(** X9: When the very first [pthread_create] fails, [thrdpool_create] runs the
    terminate protocol on the pool without workers (which joins thread id
    0), deletes the key, destroys mutex and queue, frees the pool and
    returns null, with [errno] 0: the code that
    [__thrdpool_create_threads] stored is overwritten by
    [thrdpool_create]'s own [ret], which is the 0 of [pthread_key_create]. *)
Theorem thrdpool_create_first_spawn_fails (env : pool_env) (self n stack : Z)
    (s : state) :
  env_queue_ok env -> pool_mutex_init env = 0 -> key_create env = 0 ->
  attr_init env = 0 -> 0 < n -> spawn_ret env 0 <> 0 ->
  thrdpool_create env self n stack s
  = Done None (set_errno 0 s)
      (queue_init_trace ++
       [EvMutexInit pool_mutex 0; EvKeyCreate 0; EvAttrInit 0] ++
       stack_trace stack ++ [EvCreate (spawn_ret env 0); EvAttrDestroy] ++
       terminate_trace ++ [EvKeyDelete; EvMutexDestroy pool_mutex] ++
       destory_trace ++ [EvFree BPool]).
Proof.
  intros (Hpm & Hqm & H1 & H2 & H3 & H4) Hmi Hkc Hai Hn Hsp.
  unfold thrdpool_create. rewrite Hpm. simpl.
  unfold mbind, M_bind at 1.
  rewrite (msgqueue_create_ok _ 0 0 s Hqm H1 H2 H3 H4).
  destruct (thrdpool_create_threads_first_fails env self n
              (mkPool (fresh_queue 0 0) 0 stack 0 None) s Hai eq_refl Hn Hsp)
    as (pool' & E).
  set (C := __thrdpool_create_threads _ _ _ _) in *. clearbody C.
  run. rewrite Hmi, Hkc. simpl. rewrite E. simpl.
  destruct s. unfold set_errno. simpl. f_equal.
  by rewrite <- !app_assoc.
Qed.

Lemma thrdpool_create_first_spawn_fails_witness :
  thrdpool_create (mkPoolEnv true ok_env 0 0 0 (fun _ => 11)) 99 4 0 st0
  = Done None (set_errno 0 st0)
      (queue_init_trace ++
       [EvMutexInit pool_mutex 0; EvKeyCreate 0; EvAttrInit 0] ++
       stack_trace 0 ++ [EvCreate 11; EvAttrDestroy] ++
       terminate_trace ++ [EvKeyDelete; EvMutexDestroy pool_mutex] ++
       destory_trace ++ [EvFree BPool]).
Proof.
  apply (thrdpool_create_first_spawn_fails
           (mkPoolEnv true ok_env 0 0 0 (fun _ => 11)) 99 4 0 st0);
    try done; by repeat split.
Defined.

(** ** __thrdpool_terminate *)

(** X10: [__thrdpool_terminate] returns only when no worker is left to wait
    for: called from outside with [nthreads == 0], or from inside by the
    only worker, which detaches itself and takes itself off the count.
    It then leaves [nthreads] 0, [terminate] set, the stored thread id
    zeroed, and its last action is the join of thread id 0.  With workers
    left it suspends on the terminator's condition variable. *)
Theorem thrdpool_terminate_waits_for_workers (self : Z) (in_pool : bool)
    (pool : thrdpool_t) (s : state) :
  0 <= nthreads pool ->
  let remaining := if in_pool then size_sub (nthreads pool) 1 else nthreads pool in
  (0 < remaining /\
   exists t, __thrdpool_terminate self in_pool pool s = Waits term_cond t /\
             (In (EvDetach self) t <-> in_pool = true)) \/
  (remaining = 0 /\
   exists pool' t,
     __thrdpool_terminate self in_pool pool s = Done pool' s t /\
     nthreads pool' = 0 /\ terminate pool' = Some term_cond /\ tid pool' = 0 /\
     stacksize pool' = stacksize pool /\
     last t = Some (EvJoin 0) /\
     (In (EvDetach self) t <-> in_pool = true)).
Proof.
  intros H0 remaining.
  assert (Hrem : 0 <= remaining).
  { subst remaining. destruct in_pool; [apply size_sub_nonneg|done]. }
  unfold __thrdpool_terminate, msgqueue_set_nonblock. run.
  destruct in_pool; simpl; fold remaining;
    (destruct (Z.gtb_spec remaining 0) as [Hgt|Hle];
     [left; split; [lia|]; eexists; split; [reflexivity|]
     |right; split; [lia|]; do 2 eexists; split; [reflexivity|]]);
    simpl; repeat split; try done; try lia;
    try (intros; simpl; tauto); try (simpl; intros H; intuition discriminate).
Qed.

Lemma thrdpool_terminate_waits_for_workers_witness :
  (0 < size_sub 1 1 /\
   exists t, __thrdpool_terminate 99 true (mkPool (fresh_queue 0 0) 1 0 0 None) st0
             = Waits term_cond t /\
             (In (EvDetach 99) t <-> true = true)) \/
  (size_sub 1 1 = 0 /\
   exists pool' t,
     __thrdpool_terminate 99 true (mkPool (fresh_queue 0 0) 1 0 0 None) st0
       = Done pool' st0 t /\
     nthreads pool' = 0 /\ terminate pool' = Some term_cond /\ tid pool' = 0 /\
     stacksize pool' = 0 /\
     last t = Some (EvJoin 0) /\
     (In (EvDetach 99) t <-> true = true)).
Proof.
  apply (thrdpool_terminate_waits_for_workers 99 true
           (mkPool (fresh_queue 0 0) 1 0 0 None) st0).
  by vm_compute.
Defined.

(** ** The exit protocol *)






(** ** thrdpool_destory *)

#[local] Arguments msgqueue_get : simpl never.
#[local] Arguments msgqueue_destory : simpl never.

Lemma queue_lists_with_nonblock (b : bool) (q : msgqueue_t) (h : gmap Z Z)
    (lc lp : list Z) :
  queue_lists q h lc lp -> queue_lists (with_nonblock b q) h lc lp.
Proof.
  intros (Hgh & Hph & Hne & [lastc Hc] & Hp & Hnd).
  unfold queue_lists. simpl. split_and!; try done.
  - exists lastc. apply linked_frame with (q := q) (h := h); [done|].
    by intros [| |a] _.
  - apply linked_frame with (q := q) (h := h); [done|]. by intros [| |a] _.
Qed.

Lemma thrdpool_terminate_run (self : Z) (in_pool : bool) (pool : thrdpool_t)
    (s : state) :
  (if in_pool then size_sub (nthreads pool) 1 else nthreads pool) = 0 ->
  __thrdpool_terminate self in_pool pool s
  = Done (mkPool (with_nonblock true (msgqueue pool)) 0 (stacksize pool) 0
                 (Some term_cond)) s (terminate_trace_of self in_pool).
Proof.
  intros H0. unfold __thrdpool_terminate, msgqueue_set_nonblock, terminate_trace_of.
  run. destruct in_pool; simpl; rewrite H0; simpl;
    unfold with_tid, with_terminate, with_msgqueue, with_nthreads; simpl;
    by rewrite ?H0.
Qed.

Lemma drain_loop_run (pending : option (Z -> M unit)) (tr : Z -> list event)
    (s : state) (lp : list Z) :
  hook_emits pending tr ->
  forall (lc : list Z) (fuel : nat) (pool : thrdpool_t),
    queue_lists (msgqueue pool) (heap s) lc lp ->
    msg_cnt (msgqueue pool) = 0 -> nonblock (msgqueue pool) = true ->
    link_off (msgqueue pool) = 0 ->
    (length lc < fuel)%nat ->
    exists q',
      drain_loop fuel pending pool s
      = Done (Some (with_msgqueue q' pool)) s (drain_trace tr lc) /\
      queue_lists q' (heap s) lp [].
Proof.
  intros Hhook lc. induction lc as [|a lc IH]; intros fuel pool Hq Hc Hnb Hoff Hf.
  - destruct fuel as [|fuel]; [simpl in Hf; lia|].
    exists (swapped (msgqueue pool)). split.
    + simpl. unfold mbind, M_bind.
      rewrite (msgqueue_get_uncounted _ _ (queue_lists_empty_consumer _ _ _ Hq) Hc), Hnb.
      reflexivity.
    + apply (msgqueue_swap_moves_list _ _ _ Hq). by rewrite Hnb, andb_false_r.
  - destruct fuel as [|fuel]; [simpl in Hf; lia|].
    destruct (msgqueue_get_pops_head _ _ _ _ _ Hq)
      as (q1 & Eget & Hq1 & Ecnt & Enb & Eoff & _).
    assert (Ha : a <> NULL) by (by destruct Hq as (_ & _ & _ & [? [? _]] & _)).
    rewrite Hoff, Z.sub_0_r in Eget.
    destruct (IH fuel (with_msgqueue q1 pool)) as (q' & E & Hq'); simpl; try congruence.
    { simpl in Hf. lia. }
    exists q'. split; [|done].
    simpl. unfold mbind, M_bind at 1. rewrite Eget.
    unfold is_null. destruct (Z.eqb_spec a NULL) as [|_]; [done|].
    unfold mbind, M_bind, emit. unfold hook_emits in Hhook.
    destruct pending as [hook|].
    + rewrite Hhook, E. unfold drain_trace. simpl.
      by rewrite <- !app_assoc.
    + unfold mret, M_ret. rewrite E. unfold drain_trace. simpl.
      by rewrite Hhook.
Qed.

(** X12: [thrdpool_destory] on a pool with nobody left to wait for (called from
    outside with no workers, or from inside by the only worker): after the
    terminate protocol its loop hands the entries of the consumer-side
    list to the hook, in order, and frees each one after its hook call;
    the first get that finds the consumer side empty ends the loop, so
    with [msg_cnt] at 0 the entries of the producer-side list are moved
    across but neither reported nor freed.  Then the key, the mutex and
    the queue are destroyed, and the pool is freed only when the call came
    from outside. *)
Theorem thrdpool_destory_drains_consumer_side (fuel : nat)
    (specific pool_addr self : Z) (pending : option (Z -> M unit))
    (tr : Z -> list event) (pool : thrdpool_t) (s : state) (lc lp : list Z) :
  hook_emits pending tr ->
  link_off (msgqueue pool) = 0 -> msg_cnt (msgqueue pool) = 0 ->
  queue_lists (msgqueue pool) (heap s) lc lp ->
  nthreads pool = (if thrdpool_in_pool specific pool_addr then 1 else 0) ->
  (length lc < fuel)%nat ->
  exists q',
    thrdpool_destory fuel specific pool_addr self pending pool s
    = Done (Some (mkPool q' 0 (stacksize pool) 0 (Some term_cond))) s
        (terminate_trace_of self (thrdpool_in_pool specific pool_addr) ++
         drain_trace tr lc ++
         [EvKeyDelete; EvMutexDestroy pool_mutex] ++ destory_trace ++
         (if thrdpool_in_pool specific pool_addr then [] else [EvFree BPool])) /\
    queue_lists q' (heap s) lp [].
Proof.
  intros Hhook Hoff Hc Hq Hn Hf.
  unfold thrdpool_destory.
  set (in_pool := thrdpool_in_pool specific pool_addr) in *.
  assert (H0 : (if in_pool then size_sub (nthreads pool) 1 else nthreads pool) = 0).
  { rewrite Hn. by destruct in_pool. }
  pose proof (thrdpool_terminate_run self in_pool pool s H0) as Et.
  set (pool1 := mkPool _ _ _ _ _) in Et.
  destruct (drain_loop_run pending tr s lp Hhook lc fuel pool1
              (queue_lists_with_nonblock true _ _ _ _ Hq) Hc eq_refl Hoff Hf)
    as (q' & Ed & Hq').
  exists q'. split; [|done].
  unfold mbind, M_bind at 1. rewrite Et.
  unfold mbind, M_bind at 1. rewrite Ed.
  unfold msgqueue_destory. run.
  destruct in_pool; simpl; by rewrite ?app_nil_r, <- ?app_assoc.
Qed.

Lemma thrdpool_destory_drains_consumer_side_witness :
  exists q',
    thrdpool_destory 3 7 500 99 None
      (mkPool (with_nonblock false demo_queue) 0 0 0 None) demo_state
    = Done (Some (mkPool q' 0 0 0 (Some term_cond))) demo_state
        (terminate_trace_of 99 (thrdpool_in_pool 7 500) ++
         drain_trace (fun _ => []) [4096; 8192] ++
         [EvKeyDelete; EvMutexDestroy pool_mutex] ++ destory_trace ++
         (if thrdpool_in_pool 7 500 then [] else [EvFree BPool])) /\
    queue_lists q' (heap demo_state) [] [].
Proof.
  apply (thrdpool_destory_drains_consumer_side 3 7 500 99 None (fun _ => [])
           (mkPool (with_nonblock false demo_queue) 0 0 0 None) demo_state
           [4096; 8192] []); try done.
  - exact queue_lists_demo.
  - simpl. lia.
Defined.

(** ** __thrdpool_routine *)


Lemma queue_lists_demo_tasks :
  queue_lists demo_queue demo_task_heap [4096; 8192] [].
Proof.
  unfold queue_lists. simpl. split_and!; try done.
  - by left.
  - by right.
  - by exists (Link 8192).
  - apply NoDup_cons. split; [|apply NoDup_singleton].
    intros H. by apply list_elem_of_singleton in H.
Qed.





Lemma thrdpool_schedule_never_counted (buf : Z) (task : thrdpool_task)
    (pool : thrdpool_t) (s : state) :
  never_counted (msgqueue pool) ->
  exists r pool' s' t,
    thrdpool_schedule buf task pool s = Done (r, pool') s' t /\
    never_counted (msgqueue pool') /\ terminate pool' = terminate pool /\
    nthreads pool' = nthreads pool /\ stacksize pool' = stacksize pool.
Proof.
  intros Hnc. unfold thrdpool_schedule.
  destruct (is_null buf); simpl; [by do 4 eexists|].
  unfold __thrdpool_schedule, write_cell. unfold mbind, M_bind at 1 2 3 4. simpl.
  match goal with |- context [msgqueue_put buf (msgqueue pool) ?s1] =>
    destruct (msgqueue_put_never_counted buf (msgqueue pool) s1 Hnc)
      as (q' & s' & t & E & Hnc') end.
  rewrite E. simpl. by do 4 eexists.
Qed.

Lemma thrdpool_schedules_never_counted (jobs : list (Z * thrdpool_task)) :
  forall (pool : thrdpool_t) (s : state),
    never_counted (msgqueue pool) ->
    exists pool' s' t,
      thrdpool_schedules jobs pool s = Done pool' s' t /\
      never_counted (msgqueue pool') /\ terminate pool' = terminate pool /\
      nthreads pool' = nthreads pool /\ stacksize pool' = stacksize pool.
Proof.
  induction jobs as [|[buf task] jobs IH]; intros pool s Hnc.
  - by do 3 eexists.
  - destruct (thrdpool_schedule_never_counted buf task pool s Hnc)
      as (r & pool1 & s1 & t1 & E1 & Hnc1 & Ht1 & Hn1 & Hs1).
    destruct (IH pool1 s1 Hnc1) as (pool2 & s2 & t2 & E2 & Hnc2 & Ht2 & Hn2 & Hs2).
    exists pool2, s2, (t1 ++ t2). split; [|split_and!; [done|congruence..]].
    simpl. unfold mbind, M_bind. by rewrite E1, E2.
Qed.

(** X14: On a pool that is not terminating and whose queue has never had its
    sides swapped (it is blocking, its consumer side is empty and
    [msg_cnt] is 0, as [thrdpool_create] leaves it), every sequence of
    [thrdpool_schedule] calls returns, and a worker that then enters its
    loop suspends in [msgqueue_get] without running any of the scheduled
    tasks, whatever they are. *)
Theorem thrdpool_worker_waits_after_schedules (jobs : list (Z * thrdpool_task))
    (pool : thrdpool_t) (s : state) :
  never_counted (msgqueue pool) -> terminate pool = None ->
  exists pool' s' t,
    thrdpool_schedules jobs pool s = Done pool' s' t /\
    forall fuel call self pool_addr,
      __thrdpool_routine (S fuel) call self pool_addr pool' s'
      = Waits get_cond [EvLock get_mutex; EvLock put_mutex].
Proof.
  intros Hnc Hterm.
  destruct (thrdpool_schedules_never_counted jobs pool s Hnc)
    as (pool' & s' & t & E & Hnc' & Ht' & _).
  exists pool', s', t. split; [done|]. intros fuel call self pool_addr.
  unfold __thrdpool_routine. simpl. rewrite Ht', Hterm.
  unfold mbind, M_bind. by rewrite (msgqueue_get_never_counted _ s' Hnc').
Qed.

Lemma thrdpool_worker_waits_after_schedules_witness :
  exists pool' s' t,
    thrdpool_schedules [(4096, demo_task); (8192, demo_task)] (demo_pool 1) st0
    = Done pool' s' t /\
    forall fuel call self pool_addr,
      __thrdpool_routine (S fuel) call self pool_addr pool' s'
      = Waits get_cond [EvLock get_mutex; EvLock put_mutex].
Proof.
  apply (thrdpool_worker_waits_after_schedules
           [(4096, demo_task); (8192, demo_task)] (demo_pool 1) st0);
    [apply never_counted_fresh|reflexivity].
Defined.

(** X15: A task that destroys its own pool: the only worker of a pool runs a
    task whose routine calls [thrdpool_destory] on that pool.  The call
    sees it is made from inside ([thrdpool_in_pool]), so the worker
    detaches itself and takes itself off the count instead of waiting,
    hands the rest of the consumer-side list to the hook, destroys key,
    mutex and queue and leaves the pool allocated; back in the loop the
    worker finds [nthreads] at 0, frees the pool itself, exactly once, and
    returns without the exit protocol. *)
Theorem thrdpool_routine_self_destruction (fuel fuel' : nat) (self pool_addr : Z)
    (pending : option (Z -> M unit)) (tr : Z -> list event)
    (pool : thrdpool_t) (s : state) (a rt cx : Z) (lc lp : list Z) :
  hook_emits pending tr ->
  terminate pool = None -> nthreads pool = 1 ->
  link_off (msgqueue pool) = 0 -> msg_cnt (msgqueue pool) = 0 ->
  queue_lists (msgqueue pool) (heap s) (a :: lc) lp ->
  heap s !! (a + OFF_ROUTINE) = Some rt -> heap s !! (a + OFF_CONTEXT) = Some cx ->
  (length lc < fuel')%nat ->
  exists q',
    __thrdpool_routine (S fuel) (destroying_task fuel' pool_addr self pending)
      self pool_addr pool s
    = Done (Some (true, mkPool q' 0 (stacksize pool) 0 (Some term_cond))) s
        ([EvLock get_mutex; EvUnlock get_mutex; EvFree (BMsg a)] ++
         terminate_trace_of self true ++ drain_trace tr lc ++
         [EvKeyDelete; EvMutexDestroy pool_mutex] ++ destory_trace ++
         [EvFree BPool]) /\
    queue_lists q' (heap s) lp [].
Proof.
  intros Hhook Hterm Hn Hoff Hc Hq Hrt Hcx Hf.
  destruct (msgqueue_get_pops_head _ _ _ _ _ Hq)
    as (q1 & Eget & Hq1 & Ecnt & Enb & Eoff & _).
  rewrite Hoff, Z.sub_0_r in Eget.
  set (pool1 := with_msgqueue q1 pool).
  assert (H0 : (if true then size_sub (nthreads pool1) 1 else nthreads pool1) = 0).
  { simpl. by rewrite Hn. }
  pose proof (thrdpool_terminate_run self true pool1 s H0) as Et.
  set (pool2 := mkPool _ _ _ _ _) in Et.
  destruct (drain_loop_run pending tr s lp Hhook lc fuel' pool2
              (queue_lists_with_nonblock true _ _ _ _ Hq1)) as (q' & Ed & Hq');
    [simpl; congruence|done|simpl; congruence|done|].
  exists q'. split; [|done].
  assert (Ecall : destroying_task fuel' pool_addr self pending pool_addr rt cx pool1 s
    = Done (with_msgqueue q' pool2) s
        (terminate_trace_of self true ++ drain_trace tr lc ++
         [EvKeyDelete; EvMutexDestroy pool_mutex] ++ destory_trace)).
  { unfold destroying_task, thrdpool_destory, thrdpool_in_pool.
    rewrite Z.eqb_refl.
    unfold mbind, M_bind at 1. unfold mbind, M_bind at 1. rewrite Et.
    unfold mbind, M_bind at 1. rewrite Ed.
    unfold msgqueue_destory. run.
    by rewrite ?app_nil_r, <- ?app_assoc. }
  unfold __thrdpool_routine. simpl routine_loop. rewrite Hterm.
  unfold mbind, M_bind at 1. unfold mbind, M_bind at 1. rewrite Eget.
  assert (Ha : a <> NULL) by (by destruct Hq as (_ & _ & _ & [? [? _]] & _)).
  unfold is_null. destruct (Z.eqb_spec a NULL) as [|_]; [done|].
  unfold read_cell. unfold mbind, M_bind at 1. rewrite Hrt.
  unfold mbind, M_bind at 1. rewrite Hcx.
  unfold mbind, M_bind at 1. unfold emit at 1.
  unfold mbind, M_bind at 1. fold pool1. rewrite Ecall.
  simpl. by rewrite ?app_nil_r, <- ?app_assoc.
Qed.

Lemma thrdpool_routine_self_destruction_witness :
  exists q',
    __thrdpool_routine 1 (destroying_task 2 500 99 None) 99 500
      (mkPool demo_queue 1 0 0 None) demo_task_state
    = Done (Some (true, mkPool q' 0 0 0 (Some term_cond))) demo_task_state
        ([EvLock get_mutex; EvUnlock get_mutex; EvFree (BMsg 4096)] ++
         terminate_trace_of 99 true ++ drain_trace (fun _ => []) [8192] ++
         [EvKeyDelete; EvMutexDestroy pool_mutex] ++ destory_trace ++
         [EvFree BPool]) /\
    queue_lists q' (heap demo_task_state) [] [].
Proof.
  apply (thrdpool_routine_self_destruction 0 2 99 500 None (fun _ => [])
           (mkPool demo_queue 1 0 0 None) demo_task_state 4096 11 12 [8192] []);
    try done.
  - exact queue_lists_demo_tasks.
  - simpl. lia.
Defined.

(** X16: Tasks scheduled on a pool without workers are lost when the pool is
    destroyed from outside: on a queue whose sides have never been swapped
    the scheduled entries are all on the producer side with [msg_cnt] at
    0, so the first [msgqueue_get] of the loop in [thrdpool_destory] finds
    nothing and ends it.  Whatever the [pending] hook is, it is never
    called, and no entry is freed; key, mutex, queue and pool are
    destroyed all the same. *)
Theorem thrdpool_destory_drops_scheduled_tasks (jobs : list (Z * thrdpool_task))
    (fuel : nat) (specific pool_addr self : Z) (pending : option (Z -> M unit))
    (pool : thrdpool_t) (s : state) :
  never_counted (msgqueue pool) -> nthreads pool = 0 ->
  specific <> pool_addr ->
  exists pool1 s1 t1 q2,
    thrdpool_schedules jobs pool s = Done pool1 s1 t1 /\
    thrdpool_destory (S fuel) specific pool_addr self pending pool1 s1
    = Done (Some (mkPool q2 0 (stacksize pool) 0 (Some term_cond))) s1
        (terminate_trace_of self false ++ last_get_trace ++
         [EvKeyDelete; EvMutexDestroy pool_mutex] ++ destory_trace ++
         [EvFree BPool]).
Proof.
  intros Hnc Hn Hsp.
  destruct (thrdpool_schedules_never_counted jobs pool s Hnc)
    as (pool1 & s1 & t1 & E & (Hg & Hh & Hc & Hnb & Hpt) & Ht1 & Hn1 & Hs1).
  exists pool1, s1, t1, (swapped (with_nonblock true (msgqueue pool1))).
  split; [done|].
  unfold thrdpool_destory, thrdpool_in_pool.
  destruct (Z.eqb_spec specific pool_addr) as [|_]; [done|].
  assert (H0 : (if false then size_sub (nthreads pool1) 1 else nthreads pool1) = 0)
    by congruence.
  unfold mbind, M_bind at 1. rewrite (thrdpool_terminate_run self false pool1 s1 H0).
  simpl drain_loop. unfold mbind, M_bind at 1. unfold mbind, M_bind at 1.
  rewrite msgqueue_get_uncounted; [|simpl; rewrite Hg; simpl; by rewrite Hh|done].
  unfold msgqueue_destory. run.
  by rewrite Hs1, ?app_nil_r, <- ?app_assoc.
Qed.

Lemma thrdpool_destory_drops_scheduled_tasks_witness :
  exists pool1 s1 t1 q2,
    thrdpool_schedules [(4096, demo_task); (8192, demo_task)] (demo_pool 0) st0
    = Done pool1 s1 t1 /\
    thrdpool_destory 1 7 500 99 None pool1 s1
    = Done (Some (mkPool q2 0 (stacksize (demo_pool 0)) 0 (Some term_cond))) s1
        (terminate_trace_of 99 false ++ last_get_trace ++
         [EvKeyDelete; EvMutexDestroy pool_mutex] ++ destory_trace ++
         [EvFree BPool]).
Proof.
  apply (thrdpool_destory_drops_scheduled_tasks
           [(4096, demo_task); (8192, demo_task)] 0 7 500 99 None (demo_pool 0) st0);
    [apply never_counted_fresh|reflexivity|done].
Defined.
